(** * Chub search extension: query construction, result normalisation,
      search orchestration and download, embedded from [src/index.js].

    The JavaScript is embedded shallowly.  Pure code ([buildQueryString],
    the option defaulting of [fetchCharactersBySearch], the per-node
    mapping) becomes Rocq functions; code that touches the extension's
    globals, the notifier, the network or the DOM becomes a computation
    over an explicit [World] that can also throw.

    Conventions of the embedding:
    - a JavaScript string is a [string]; one [ascii] stands for one UTF-16
      code unit, so the model covers the code units below 256;
    - a JavaScript number is an integer ([Z]) or [NaN]; JavaScript agrees
      with [Z] arithmetic and decimal printing up to
      [Number.MAX_SAFE_INTEGER];
    - [console.*] calls are not observable and are left out;
    - an [await] is a plain sequencing point: the outcome of the awaited
      network call is read from an oracle [net]. *)

From Stdlib Require Import ZArith String Ascii Decimal DecimalString DecimalPos DecimalZ.
From stdpp Require Import gmap strings list.

Local Open Scope Z_scope.
Local Open Scope string_scope.

(** ** JavaScript strings *)

Module Js.

(** [String.prototype.slice(0, n)]. *)
Definition slice0 (n : nat) (s : string) : string := substring 0 n s.

(** [Array.prototype.join(sep)] on an array of strings. *)
Fixpoint join (sep : string) (l : list string) : string :=
  match l with
  | [] => ""
  | [x] => x
  | x :: r => x ++ sep ++ join sep r
  end.

(** [String.prototype.startsWith]. *)
Definition startsWith (p s : string) : bool := String.prefix p s.

(** White space and line terminators below code unit 256
    (TAB, LF, VT, FF, CR, SP, NBSP). *)
Definition isWhiteSpace (c : ascii) : bool :=
  let n := nat_of_ascii c in
  (Nat.leb 9 n && Nat.leb n 13) || Nat.eqb n 32 || Nat.eqb n 160.

Fixpoint trimStart (s : string) : string :=
  match s with
  | String c r => if isWhiteSpace c then trimStart r else s
  | EmptyString => EmptyString
  end.

(** Drops trailing white space: a character is kept when something
    that is not white space follows it or it is not white space. *)
Fixpoint trimEnd (s : string) : string :=
  match s with
  | EmptyString => EmptyString
  | String c r =>
      match trimEnd r with
      | EmptyString => if isWhiteSpace c then EmptyString else String c EmptyString
      | r' => String c r'
      end
  end.

(** [String.prototype.trim]. *)
Definition trim (s : string) : string := trimEnd (trimStart s).

(** [String.prototype.split(sep)] for a non-empty separator.  [skip]
    counts the characters of a separator occurrence still to be
    dropped, [cur] is the segment being read. *)
Fixpoint splitGo (sep : string) (s : string) (skip : nat) (cur : string)
  : list string :=
  match s with
  | EmptyString => [cur]
  | String c r =>
      match skip with
      | S k => splitGo sep r k cur
      | O =>
          if String.prefix sep s
          then cur :: splitGo sep r (Nat.pred (String.length sep)) ""
          else splitGo sep r O (cur ++ String c "")
      end
  end.

Fixpoint chars (s : string) : list string :=
  match s with
  | EmptyString => []
  | String c r => String c "" :: chars r
  end.

Definition split (sep s : string) : list string :=
  match sep with
  | EmptyString => chars s
  | _ => splitGo sep s O ""
  end.

(** [s.replace(/c/g, '')]: every occurrence of the character removed. *)
Fixpoint removeAll (c : ascii) (s : string) : string :=
  match s with
  | EmptyString => EmptyString
  | String d r => if Ascii.eqb c d then removeAll c r else String d (removeAll c r)
  end.

Definition toLowerChar (c : ascii) : ascii :=
  let n := nat_of_ascii c in
  if Nat.leb 65 n && Nat.leb n 90 then ascii_of_nat (n + 32) else c.

Fixpoint toLowerCase (s : string) : string :=
  match s with
  | EmptyString => EmptyString
  | String c r => String (toLowerChar c) (toLowerCase r)
  end.

(** *** Numbers *)

(** A JavaScript number of the model: [NaN] or an integer, held
    exactly.  JavaScript holds the integers of magnitude up to
    [MAX_SAFE_INTEGER] exactly, and on those the model and JavaScript
    agree; beyond them a JavaScript number is a rounded double, which
    the model does not follow. *)
Inductive number : Type :=
| NaN
| Int (n : Z).

Definition MAX_SAFE_INTEGER : Z := 2 ^ 53 - 1.

(** [Number.prototype.toString()] on the integers, [NaN] apart: the
    decimal digits, which is what JavaScript prints for every safe
    integer (from [1e21] on it prints an exponent). *)
Definition decimal (n : Z) : string := NilZero.string_of_int (Z.to_int n).

Definition numberToString (x : number) : string :=
  match x with
  | NaN => "NaN"
  | Int n => decimal n
  end.

Definition digitValue (c : ascii) : option Z :=
  let n := nat_of_ascii c in
  if Nat.leb 48 n && Nat.leb n 57 then Some (Z.of_nat (n - 48)) else None.

(** Value of the longest prefix of decimal digits, [acc] being the
    value of the digits already read. *)
Fixpoint digitsPrefix (s : string) (acc : Z) : Z :=
  match s with
  | EmptyString => acc
  | String c r =>
      match digitValue c with
      | Some d => digitsPrefix r (10 * acc + d)
      | None => acc
      end
  end.

Definition startsWithDigit (s : string) : bool :=
  match s with
  | String c _ => match digitValue c with Some _ => true | None => false end
  | EmptyString => false
  end.

(** [parseInt(s, 10)] on a string: leading white space is skipped, one
    sign is read, then the longest prefix of digits; whatever follows
    is ignored, and [NaN] results when there is no digit.  The integer
    is the one JavaScript returns when it is a safe integer; a longer
    digit string is rounded by JavaScript and kept exact here. *)
Definition parseInt10 (s : string) : number :=
  let s1 := trimStart s in
  let '(sign, s2) :=
    match s1 with
    | String "-" r => (-1, r)
    | String "+" r => (1, r)
    | _ => (1, s1)
    end in
  if startsWithDigit s2 then Int (sign * digitsPrefix s2 0) else NaN.

(** A parser that accepts only a whole string of the form
    [-?digits]: what "strict base-10 integer parser" means.  Used to
    compare with [parseInt10]. *)
Fixpoint allDigits (s : string) : bool :=
  match s with
  | EmptyString => true
  | String c r => match digitValue c with Some _ => allDigits r | None => false end
  end.

Definition strictParseInt10 (s : string) : number :=
  let '(sign, s2) :=
    match s with
    | String "-" r => (-1, r)
    | _ => (1, s)
    end in
  if startsWithDigit s2 && allDigits s2 then Int (sign * digitsPrefix s2 0) else NaN.

End Js.

(** ** Option values and option objects *)

(** The values an options object or the settings store holds: what
    [handleSearch] gathers from the form (strings, integers or [null]
    from [getInt], booleans or [undefined] from [getChecked], arrays of
    strings from [splitAndTrim]). *)
Inductive optval : Type :=
| OUndefined
| ONull
| OBool (b : bool)
| ONum (x : Js.number)
| OStr (s : string)
| OTags (tags : list string).

(** An object with string keys, in insertion order ([Object.entries]
    order).  Keys are unique in a JavaScript object: see [wf_obj]. *)
Definition obj : Type := list (string * optval).

Definition wf_obj (o : obj) : Prop := NoDup (map fst o).

(** Property read [o.k]: [undefined] when the key is absent. *)
Fixpoint obj_get (o : obj) (k : string) : optval :=
  match o with
  | [] => OUndefined
  | (k', v) :: r => if String.eqb k k' then v else obj_get r k
  end.

(** Property write [o.k = v]: an existing key keeps its place, a new key
    goes last. *)
Fixpoint obj_set (k : string) (v : optval) (o : obj) : obj :=
  match o with
  | [] => [(k, v)]
  | (k', v') :: r => if String.eqb k k' then (k, v) :: r else (k', v') :: obj_set k v r
  end.

(** JavaScript truthiness. *)
Definition truthy (v : optval) : bool :=
  match v with
  | OUndefined | ONull => false
  | OBool b => b
  | ONum Js.NaN => false
  | ONum (Js.Int n) => negb (Z.eqb n 0)
  | OStr s => negb (String.eqb s "")
  | OTags _ => true
  end.

(** [a || b]. *)
Definition js_or (a b : optval) : optval := if truthy a then a else b.

(** [typeof v === 'boolean' ? v : d]. *)
Definition boolean_or (v d : optval) : optval :=
  match v with
  | OBool _ => v
  | _ => d
  end.

(** [String(v)]. *)
Definition toString (v : optval) : string :=
  match v with
  | OUndefined => "undefined"
  | ONull => "null"
  | OBool true => "true"
  | OBool false => "false"
  | ONum x => Js.numberToString x
  | OStr s => s
  | OTags tags => Js.join "," tags
  end.

(** ** Settings *)

(** [defaultSettings], in source order. *)
Definition defaultSettings : obj :=
  [ ("findCount", ONum (Js.Int 30));
    ("nsfw", OBool false);
    ("nsfl", OBool false);
    ("nsfw_only", OBool false);
    ("require_images", OBool false);
    ("require_example_dialogues", OBool false);
    ("require_alternate_greetings", OBool false);
    ("require_custom_prompt", OBool false);
    ("require_expressions", OBool false);
    ("require_lore", OBool false);
    ("require_lore_embedded", OBool false);
    ("require_lore_linked", OBool false);
    ("inclusive_or", OBool false);
    ("recommended_verified", OBool false) ].

(** [extension_settings.chub.k]. *)
Definition setting (chub : gmap string optval) (k : string) : optval :=
  default OUndefined (chub !! k).

Section LoadSettings.

(** JavaScript's [Number(v)] coercion, left abstract: only the stored
    [findCount] goes through it. *)
Variable Number : optval -> optval.

(** [loadSettings]: creates [extension_settings.chub] when it is
    missing, adds every default whose key the store does not own, then
    coerces [findCount]. *)
Definition loadSettings (chub : option (gmap string optval)) : gmap string optval :=
  let chub0 := match chub with Some m => m | None => ∅ end in
  let chub1 :=
    fold_left
      (fun (m : gmap string optval) '(key, value) =>
         match m !! key with
         | Some _ => m
         | None => <[key := value]> m
         end)
      defaultSettings chub0 in
  <["findCount" := js_or (Number (setting chub1 "findCount"))
                         (obj_get defaultSettings "findCount")]> chub1.

End LoadSettings.

(** The store holds a value for every key of [defaultSettings]. *)
Definition pre_seeded (chub : gmap string optval) : Prop :=
  forall k, In k (map fst defaultSettings) -> is_Some (chub !! k).

(** ** Query encoder *)

(** [paramMap], in source order. *)
Definition paramTable : list (string * string) :=
  [ ("searchTerm", "search");
    ("name_like", "name_like");
    ("first", "first");
    ("min_users_chatted", "min_users_chatted");
    ("includeTags", "tags");
    ("excludeTags", "exclude_tags");
    ("page", "page");
    ("sort", "sort");
    ("asc", "asc");
    ("include_forks", "include_forks");
    ("nsfw", "nsfw");
    ("nsfl", "nsfl");
    ("nsfw_only", "nsfw_only");
    ("require_images", "require_images");
    ("require_example_dialogues", "require_example_dialogues");
    ("require_alternate_greetings", "require_alternate_greetings");
    ("require_custom_prompt", "require_custom_prompt");
    ("max_days_ago", "max_days_ago");
    ("exclude_mine", "exclude_mine");
    ("only_mine", "only_mine");
    ("min_tokens", "min_tokens");
    ("max_tokens", "max_tokens");
    ("require_expressions", "require_expressions");
    ("require_lore", "require_lore");
    ("mine_first", "mine_first");
    ("require_lore_embedded", "require_lore_embedded");
    ("require_lore_linked", "require_lore_linked");
    ("my_favorites", "my_favorites");
    ("topics", "topics");
    ("excludetopics", "excludetopics");
    ("creator_id", "creator_id");
    ("username", "username");
    ("inclusive_or", "inclusive_or");
    ("recommended_verified", "recommended_verified");
    ("min_tags", "min_tags");
    ("min_ai_rating", "min_ai_rating");
    ("language", "language") ].

Fixpoint assoc (t : list (string * string)) (k : string) : option string :=
  match t with
  | [] => None
  | (k', a) :: r => if String.eqb k k' then Some a else assoc r k
  end.

(** [paramMap[optionKey]] for the own keys of [paramMap]; option keys are
    the names [handleSearch] writes, never a member inherited from
    [Object.prototype]. *)
Definition paramMap (optionKey : string) : option string := assoc paramTable optionKey.

Definition mem (x : string) (l : list string) : bool := existsb (String.eqb x) l.

Definition tagApiKeys : list string := ["tags"; "exclude_tags"; "topics"; "excludetopics"].

Definition numericApiKeys : list string :=
  ["min_tokens"; "max_tokens"; "min_tags"; "min_users_chatted"; "max_days_ago";
   "creator_id"; "min_ai_rating"].

Definition isArray (v : optval) : bool :=
  match v with OTags _ => true | _ => false end.

(** [value !== null && value !== undefined && value !== ''] *)
Definition meaningful (v : optval) : bool :=
  match v with
  | ONull | OUndefined => false
  | OStr s => negb (String.eqb s "")
  | _ => true
  end.

(** [value.filter(tag => tag.length > 0).join(',').slice(0, 500)] *)
Definition tagsString (tags : list string) : string :=
  Js.slice0 500
    (Js.join "," (List.filter (fun tag => Nat.ltb 0 (String.length tag)) tags)).

(** The body of the loop of [buildQueryString] for one entry of
    [options]: the pairs it appends to [params]. *)
Definition encodeEntry (optionKey : string) (value : optval) : list (string * string) :=
  match paramMap optionKey with
  | Some apiKey =>
      if meaningful value then
        if mem apiKey tagApiKeys && isArray value then
          match value with
          | OTags tags =>
              if Nat.ltb 0 (length tags) then
                if negb (String.eqb (tagsString tags) "")
                then [(apiKey, tagsString tags)]
                else []
              else []
          | _ => []
          end
        else if mem apiKey numericApiKeys then
          match Js.parseInt10 (toString value) with
          | Js.Int numValue => [(apiKey, Js.decimal numValue)]
          | Js.NaN => []
          end
        else
          (* the boolean branch and the default branch append alike *)
          [(apiKey, toString value)]
      else []
  | None => []
  end.

(** The entries of the [URLSearchParams] that [buildQueryString] fills:
    the encoded query as a sequence of key/value pairs. *)
Definition buildParams (options : obj) : list (string * string) :=
  fold_left (fun params '(optionKey, value) => (params ++ encodeEntry optionKey value)%list)
            options [].

(** [params.getAll(key)]. *)
Definition getAll (key : string) (params : list (string * string)) : list string :=
  map snd (List.filter (fun p => String.eqb (fst p) key) params).

(** [params.has(key)]. *)
Definition has (key : string) (params : list (string * string)) : bool :=
  existsb (fun p => String.eqb (fst p) key) params.

(** [params.toString()]: the application/x-www-form-urlencoded
    serialisation.  Letters, digits and [*-._] stay, a space becomes [+],
    every other byte of the UTF-8 encoding is percent-encoded. *)
Module UrlEncoded.

Definition hexDigit (n : nat) : ascii :=
  match get n "0123456789ABCDEF" with Some c => c | None => "0"%char end.

Definition percent (byte : nat) : string :=
  String "%" (String (hexDigit (byte / 16)) (String (hexDigit (byte mod 16)) "")).

Definition unreserved (n : nat) : bool :=
  (Nat.leb 48 n && Nat.leb n 57) || (Nat.leb 65 n && Nat.leb n 90)
  || (Nat.leb 97 n && Nat.leb n 122)
  || Nat.eqb n 42 || Nat.eqb n 45 || Nat.eqb n 46 || Nat.eqb n 95.

Definition encodeUnit (c : ascii) : string :=
  let n := nat_of_ascii c in
  if Nat.eqb n 32 then "+"
  else if unreserved n then String c ""
  else if Nat.ltb n 128 then percent n
  else percent (192 + n / 64) ++ percent (128 + n mod 64).

Fixpoint encode (s : string) : string :=
  match s with
  | EmptyString => EmptyString
  | String c r => encodeUnit c ++ encode r
  end.

Definition serialize (params : list (string * string)) : string :=
  Js.join "&" (map (fun '(k, v) => encode k ++ "=" ++ encode v) params).

End UrlEncoded.

(** [buildQueryString(options)]. *)
Definition buildQueryString (options : obj) : string :=
  UrlEncoded.serialize (buildParams options).

(** ** Option normaliser *)

(** The flags that [fetchCharactersBySearch] completes from the settings
    store (lines 222 to 235, in source order). *)
Definition settingsFlags : list string :=
  [ "nsfw"; "nsfl"; "nsfw_only"; "require_images"; "require_example_dialogues";
    "require_alternate_greetings"; "require_custom_prompt"; "require_expressions";
    "require_lore"; "require_lore_embedded"; "require_lore_linked"; "inclusive_or";
    "recommended_verified" ].

(** The boolean requirement flags of the search options. *)
Definition booleanFlags : list string := (settingsFlags ++ ["include_forks"])%list.

(** [options.k = typeof options.k === 'boolean' ? options.k : extension_settings.chub.k] *)
Definition fromSettings (chub : gmap string optval) (options : obj) (k : string) : obj :=
  obj_set k (boolean_or (obj_get options k) (setting chub k)) options.

(** The defaulting that opens [fetchCharactersBySearch]; the caller's
    object is updated in place, the result is that object afterwards. *)
Definition normalizeOptions (chub : gmap string optval) (options : obj) : obj :=
  let options :=
    obj_set "first"
      (js_or (obj_get options "first") (js_or (setting chub "findCount") (ONum (Js.Int 30))))
      options in
  let options := fold_left (fromSettings chub) settingsFlags options in
  let options := obj_set "sort" (js_or (obj_get options "sort") (OStr "download_count")) options in
  let options := obj_set "page" (js_or (obj_get options "page") (ONum (Js.Int 1))) options in
  let options := obj_set "asc" (boolean_or (obj_get options "asc") (OBool false)) options in
  obj_set "include_forks" (boolean_or (obj_get options "include_forks") (OBool true)) options.

(** [getInt] of [handleSearch]; [val] is
    [document.getElementById(id)?.value], [None] standing for
    [undefined]. *)
Definition getInt (val : option string) : optval :=
  match val with
  | Some s => if negb (String.eqb s "") then ONum (Js.parseInt10 s) else ONull
  | None => ONull
  end.

(** ** Response values *)

(** A parsed JSON value, with [undefined] for what a property read of a
    missing key gives.  A JSON number is tested for truthiness by the
    code, and printed only in the message of an error body: integers
    stand for all of them. *)
#[warnings="-register-all"]
Inductive value : Type :=
| VUndefined
| VNull
| VBool (b : bool)
| VNum (n : Z)
| VStr (s : string)
| VArr (items : list value)
| VObj (fields : list (string * value)).

Inductive exn : Type := TypeError | SyntaxError | NetworkError.

Inductive outcome (A : Type) : Type :=
| Returns (a : A)
| Throws (e : exn).
Arguments Returns {A} a.
Arguments Throws {A} e.

Definition v_truthy (v : value) : bool :=
  match v with
  | VUndefined | VNull => false
  | VBool b => b
  | VNum n => negb (Z.eqb n 0)
  | VStr s => negb (String.eqb s "")
  | VArr _ | VObj _ => true
  end.

Fixpoint field (fields : list (string * value)) (k : string) : value :=
  match fields with
  | [] => VUndefined
  | (k', v) :: r => if String.eqb k k' then v else field r k
  end.

(** Property read [v.k] for a data property [k]: a [TypeError] on [null]
    and [undefined], the own field of an object, the [length] of a string
    or an array, [undefined] otherwise. *)
Definition prop (v : value) (k : string) : outcome value :=
  match v with
  | VUndefined | VNull => Throws TypeError
  | VObj fields => Returns (field fields k)
  | VStr s => Returns (if String.eqb k "length" then VNum (Z.of_nat (String.length s)) else VUndefined)
  | VArr items => Returns (if String.eqb k "length" then VNum (Z.of_nat (length items)) else VUndefined)
  | VBool _ | VNum _ => Returns VUndefined
  end.

(** The results of evaluations made one after the other: those of all
    of them, or the first throw. *)
Fixpoint collect {A : Type} (l : list (outcome A)) : outcome (list A) :=
  match l with
  | [] => Returns []
  | Throws e :: _ => Throws e
  | Returns a :: r =>
      match collect r with
      | Returns rest => Returns (a :: rest)
      | Throws e => Throws e
      end
  end.

(** [String(v)], as a template literal applies it to a parsed JSON
    value.  An object that has no [toString] of its own prints as
    [[object Object]]; one that has (in parsed JSON it is never a
    function) makes the conversion throw, the inherited [valueOf]
    giving no primitive either.  An array prints its elements joined
    with commas, [null] and [undefined] as the empty string.  A number
    prints in decimal digits, as JavaScript prints the safe integers. *)
Fixpoint v_toString (v : value) : outcome string :=
  match v with
  | VUndefined => Returns "undefined"
  | VNull => Returns "null"
  | VBool true => Returns "true"
  | VBool false => Returns "false"
  | VNum n => Returns (Js.decimal n)
  | VStr s => Returns s
  | VArr items =>
      match collect (map (fun x => match x with
                                   | VUndefined | VNull => Returns ""
                                   | _ => v_toString x
                                   end) items) with
      | Returns parts => Returns (Js.join "," parts)
      | Throws e => Throws e
      end
  | VObj fields =>
      if mem "toString" (map fst fields) then Throws TypeError
      else Returns "[object Object]"
  end.

(** ** Character records *)

Definition extensionName : string := "Work-SillyTavern-Chub-Search".
Definition extensionFolderPath : string := "scripts/extensions/" ++ extensionName ++ "/".
Definition placeholder : string := extensionFolderPath ++ "placeholder.png".

(** The object literal that the mapping of [fetchCharactersBySearch]
    returns for a node. *)
Record CharacterRecord : Type := {
  url : value;
  description : value;
  name : value;
  fullPath : value;
  tags : value;
  author : value
}.

Definition v_or (a b : value) : value := if v_truthy a then a else b.

(** The arrow function mapped over [nodes].  Reading a property of a
    [null] node, calling [startsWith] on an image URL that is not a
    string and calling [split] on a [fullPath] that is not a string
    throw. *)
Definition normalizeNode (node : value) : outcome CharacterRecord :=
  match node with
  | VUndefined | VNull => Throws TypeError
  | _ =>
      let get k := match prop node k with Returns v => v | Throws _ => VUndefined end in
      let imageUrl := v_or (get "avatar_url") (v_or (get "avatar") (VStr placeholder)) in
      (* if (imageUrl && !imageUrl.startsWith('http') && !imageUrl.startsWith('blob:')) {} *)
      let check :=
        if v_truthy imageUrl then
          match imageUrl with
          | VStr s =>
              Returns (negb (Js.startsWith "http" s) && negb (Js.startsWith "blob:" s))
          | _ => Throws TypeError
          end
        else Returns false in
      match check with
      | Throws e => Throws e
      | Returns _ =>
          let fp := get "fullPath" in
          let author :=
            if v_truthy fp then
              match fp with
              | VStr s => Returns (match Js.split "/" s with a :: _ => VStr a | [] => VUndefined end)
              | _ => Throws TypeError
              end
            else Returns (VStr "Unknown Author") in
          match author with
          | Throws e => Throws e
          | Returns a =>
              Returns {| url := imageUrl;
                         description := v_or (get "tagline") (VStr "No description.");
                         name := v_or (get "name") (VStr "Unnamed Character");
                         fullPath := fp;
                         tags := v_or (get "topics") (VArr []);
                         author := a |}
          end
      end
  end.

Fixpoint mapNodes (nodes : list value) : outcome (list CharacterRecord) :=
  match nodes with
  | [] => Returns []
  | node :: rest =>
      match normalizeNode node with
      | Throws e => Throws e
      | Returns c =>
          match mapNodes rest with
          | Throws e => Throws e
          | Returns cs => Returns (c :: cs)
          end
      end
  end.

(** [nodes.map(node => ...)]: only an array has [map]. *)
Definition nodes_map (nodes : value) : outcome (list CharacterRecord) :=
  match nodes with
  | VArr items => mapNodes items
  | _ => Throws TypeError
  end.

(** ** The world the extension runs in *)

Inductive level : Type := Info | Warning | Error.

(** The [onclick] handler of a toast: the only one in the source opens a
    window. *)
Inductive action : Type :=
| WindowOpen (target_url : string) (target : string).

(** One call of [toastr.info], [toastr.warning] or [toastr.error]. *)
Record Toast : Type := {
  toast_level : level;
  toast_message : string;
  toast_title : option string;
  toast_onclick : option action
}.

(** The element behind [characterListContainer]. *)
Record Element : Type := {
  inDocument : bool;            (* document.body.contains(element) *)
  classList : list string
}.

(** [classList.add(c)] and [classList.remove(c)]: a token list holds a
    token once. *)
Definition classList_add (c : string) (e : Element) : Element :=
  {| inDocument := inDocument e;
     classList := if mem c (classList e) then classList e else (classList e ++ [c])%list |}.

Definition classList_remove (c : string) (e : Element) : Element :=
  {| inDocument := inDocument e;
     classList := List.filter (fun x => negb (String.eqb x c)) (classList e) |}.

Inductive requestHeaders : Type := NoHeaders | GetRequestHeaders.

(** A call of [fetch]; [req_body] is the value handed to
    [JSON.stringify]. *)
Record Request : Type := {
  req_url : string;
  req_method : string;
  req_headers : requestHeaders;
  req_body : option value
}.

Record Blob : Type := { blob_bytes : string; blob_type : string }.

Record File : Type := { file_bits : list Blob; file_name : string; file_type : string }.

(** What the code reads of a response.  [json] and [blob] are [None]
    when reading the body that way rejects; header names are stored in
    lower case, one entry per name. *)
Record Response : Type := {
  status : Z;
  statusText : string;
  headers : list (string * string);
  json : option value;
  blob : option Blob
}.

(** [response.ok]: the status is in the range 200 to 299. *)
Definition ok (r : Response) : bool := Z.leb 200 (status r) && Z.leb (status r) 299.

(** [response.headers.get(name)]: [None] stands for [null]. *)
Definition headers_get (r : Response) (name : string) : option string :=
  assoc (headers r) (Js.toLowerCase name).

Inductive fetched : Type :=
| Rejects
| Resolves (r : Response).

(** The globals of the module and the collaborators' logs. *)
Record World : Type := {
  chub : gmap string optval;                  (* extension_settings.chub *)
  chubCharacters : list CharacterRecord;
  characterListContainer : option Element;
  toasts : list Toast;                        (* notifier calls, oldest first *)
  requests : list Request;                    (* fetch calls, oldest first *)
  dropped : list (list File)                  (* processDroppedFiles calls *)
}.

(** Computations over the world that return or throw. *)
Definition M (A : Type) : Type := World -> outcome A * World.

Definition ret {A} (a : A) : M A := fun w => (Returns a, w).
Definition throw {A} (e : exn) : M A := fun w => (Throws e, w).

Definition bind {A B} (c : M A) (k : A -> M B) : M B :=
  fun w =>
    match c w with
    | (Returns a, w') => k a w'
    | (Throws e, w') => (Throws e, w')
    end.

(** [try { body } catch (e) { handler }] *)
Definition try_catch {A} (body : M A) (handler : exn -> M A) : M A :=
  fun w =>
    match body w with
    | (Returns a, w') => (Returns a, w')
    | (Throws e, w') => handler e w'
    end.

Definition lift {A} (o : outcome A) : M A := fun w => (o, w).

Notation "x <- c ;; k" := (bind c (fun x => k))
  (at level 100, c at next level, right associativity).
Notation "c ;;; k" := (bind c (fun _ => k))
  (at level 100, right associativity).

Definition toastr (t : Toast) : M unit :=
  fun w => (Returns tt,
            {| chub := chub w; chubCharacters := chubCharacters w;
               characterListContainer := characterListContainer w;
               toasts := (toasts w ++ [t])%list; requests := requests w;
               dropped := dropped w |}).

Definition toastr_error (message title : string) : M unit :=
  toastr {| toast_level := Error; toast_message := message;
            toast_title := Some title; toast_onclick := None |}.

Definition toastr_warning (message : string) : M unit :=
  toastr {| toast_level := Warning; toast_message := message;
            toast_title := None; toast_onclick := None |}.

Definition toastr_info (message title : string) (onclick : action) : M unit :=
  toastr {| toast_level := Info; toast_message := message;
            toast_title := Some title; toast_onclick := Some onclick |}.

Definition set_chubCharacters (cs : list CharacterRecord) : M unit :=
  fun w => (Returns tt,
            {| chub := chub w; chubCharacters := cs;
               characterListContainer := characterListContainer w;
               toasts := toasts w; requests := requests w; dropped := dropped w |}).

Definition set_characterListContainer (c : option Element) : M unit :=
  fun w => (Returns tt,
            {| chub := chub w; chubCharacters := chubCharacters w;
               characterListContainer := c;
               toasts := toasts w; requests := requests w; dropped := dropped w |}).

Definition processDroppedFiles (files : list File) : M unit :=
  fun w => (Returns tt,
            {| chub := chub w; chubCharacters := chubCharacters w;
               characterListContainer := characterListContainer w;
               toasts := toasts w; requests := requests w;
               dropped := (dropped w ++ [files])%list |}).

Section Network.

(** The network: what a call of [fetch] settles to. *)
Variable net : Request -> fetched.

(** [await fetch(...)]: the call is logged; a rejection is thrown. *)
Definition fetch (rq : Request) : M Response :=
  fun w =>
    let w' := {| chub := chub w; chubCharacters := chubCharacters w;
                 characterListContainer := characterListContainer w;
                 toasts := toasts w; requests := (requests w ++ [rq])%list;
                 dropped := dropped w |} in
    match net rq with
    | Rejects => (Throws NetworkError, w')
    | Resolves r => (Returns r, w')
    end.

(** [await response.json()] *)
Definition response_json (r : Response) : M value :=
  match json r with
  | Some v => ret v
  | None => throw SyntaxError
  end.

(** [await response.blob()] *)
Definition response_blob (r : Response) : M Blob :=
  match blob r with
  | Some b => ret b
  | None => throw NetworkError
  end.

Definition API_ENDPOINT_SEARCH : string := "https://inference.chub.ai/search".

Definition searchRequest (queryString : string) : Request :=
  {| req_url := API_ENDPOINT_SEARCH ++ "?" ++ queryString; req_method := "GET";
     req_headers := NoHeaders; req_body := None |}.

(** [searchData.nodes || (searchData.data ? searchData.data.nodes : null)] *)
Definition findNodes (searchData : value) : outcome value :=
  match prop searchData "nodes" with
  | Throws e => Throws e
  | Returns top =>
      if v_truthy top then Returns top
      else
        match prop searchData "data" with
        | Throws e => Throws e
        | Returns data => if v_truthy data then prop data "nodes" else Returns VNull
        end
  end.

(** [!nodes || nodes.length === 0] *)
Definition noNodes (nodes : value) : bool :=
  negb (v_truthy nodes)
  || match prop nodes "length" with
     | Returns (VNum 0) => true
     | _ => false
     end.

(** [fetchCharactersBySearch(options)] *)
Definition fetchCharactersBySearch (options : obj) : M (list CharacterRecord) :=
  fun w0 =>
    let options := normalizeOptions (chub w0) options in
    let queryString := buildQueryString options in
    try_catch
      (searchResponse <- fetch (searchRequest queryString) ;;
       if negb (ok searchResponse) then
         try_catch
           (errorData <- response_json searchResponse ;;
            message <- lift (prop errorData "message") ;;
            detail <- (if v_truthy message then lift (v_toString message)
                       else ret (statusText searchResponse)) ;;
            toastr_error ("CHub search failed: " ++ detail) "API Error")
           (fun _ =>
              toastr_error ("CHub search failed: " ++ statusText searchResponse) "API Error") ;;;
         ret []
       else
         searchData <- response_json searchResponse ;;
         set_chubCharacters [] ;;;
         nodes <- lift (findNodes searchData) ;;
         if noNodes nodes then ret []
         else
           characters <- lift (nodes_map nodes) ;;
           set_chubCharacters characters ;;;
           ret characters)
      (fun _ =>
         toastr_error "An error occurred while searching CHub." "Fetch Error" ;;;
         ret [])
      w0.

(** [searchCharacters(options)] *)
Definition searchCharacters (options : obj) : M (list CharacterRecord) :=
  (fun w =>
     match characterListContainer w with
     | Some e => if negb (inDocument e) then set_characterListContainer None w
                 else ret tt w
     | None => ret tt w
     end) ;;;
  (fun w =>
     match characterListContainer w with
     | Some e => set_characterListContainer (Some (classList_add "searching" e)) w
     | None => ret tt w
     end) ;;;
  characters <- fetchCharactersBySearch options ;;
  (fun w =>
     match characterListContainer w with
     | Some e => set_characterListContainer (Some (classList_remove "searching" e)) w
     | None => ret tt w
     end) ;;;
  ret characters.

End Network.

(** ** Download trigger *)

Section Download.

Variable net : Request -> fetched.

Definition importRequest (endpoint url : string) : Request :=
  {| req_url := endpoint; req_method := "POST"; req_headers := GetRequestHeaders;
     req_body := Some (VObj [("url", VStr url)]) |}.

Definition primaryEndpoint : string := "/api/content/importUUID".
Definition legacyEndpoint : string := "/import_custom".

Definition doubleQuote : ascii := ascii_of_nat 34.

(** [request.headers.get('Content-Disposition').split('filename=')[1].replace(/q/g, '')]
    where [q] is the double quote: reading [split] of [null] and
    [replace] of [undefined] throw. *)
Definition fileNameOf (r : Response) : outcome string :=
  match headers_get r "Content-Disposition" with
  | None => Throws TypeError
  | Some h =>
      match Js.split "filename=" h with
      | _ :: second :: _ => Returns (Js.removeAll doubleQuote second)
      | _ => Throws TypeError
      end
  end.

Definition manualFallback (url : string) : action :=
  WindowOpen ("https://www.chub.ai/characters/" ++ url) "_blank".

(** [downloadCharacter(input)] *)
Definition downloadCharacter (input : string) : M unit :=
  let url := Js.trim input in
  first <- fetch net (importRequest primaryEndpoint url) ;;
  request <- (if negb (ok first) then fetch net (importRequest legacyEndpoint url)
              else ret first) ;;
  if negb (ok request) then
    toastr_info "Click to go to the character page" "Custom content import failed"
                (manualFallback url)
  else
    data <- response_blob request ;;
    let customContentType := headers_get request "X-Custom-Content-Type" in
    fileName <- lift (fileNameOf request) ;;
    let file := {| file_bits := [data]; file_name := fileName;
                   file_type := blob_type data |} in
    (* switch (customContentType): one case, and the default *)
    match customContentType with
    | Some kind =>
        if String.eqb kind "character" then processDroppedFiles [file]
        else toastr_warning "Unknown content type"
    | None => toastr_warning "Unknown content type"
    end.

End Download.

(** ** Sample worlds and responses *)

Definition emptyWorld : World :=
  {| chub := list_to_map defaultSettings; chubCharacters := [];
     characterListContainer := Some {| inDocument := true; classList := ["chub-list-popup"] |};
     toasts := []; requests := []; dropped := [] |}.

Definition jsonResponse (code : Z) (text : string) (body : option value) : Response :=
  {| status := code; statusText := text; headers := []; json := body; blob := None |}.

Definition cardResponse (kind disposition : string) : Response :=
  {| status := 200; statusText := "OK";
     headers := [("x-custom-content-type", kind); ("content-disposition", disposition)];
     json := None;
     blob := Some {| blob_bytes := "PNG"; blob_type := "image/png" |} |}.

(** ** Vocabulary of the statements *)

(** The numeric filter fields that [handleSearch] reads with [getInt]. *)
Definition numericFilterFields : list string :=
  ["min_tokens"; "max_tokens"; "min_tags"; "min_users_chatted"; "max_days_ago";
   "min_ai_rating"].

(** The tag-list options with the API key each is sent under. *)
Definition tagListOptions : list (string * string) :=
  [("includeTags", "tags"); ("excludeTags", "exclude_tags"); ("topics", "topics");
   ("excludetopics", "excludetopics")].

Definition booleanLiteral (b : bool) : string := if b then "true" else "false".

(** A flag resolved as explicit value first, persisted setting second. *)
Definition follows_settings (chub : gmap string optval) (raw : obj) (flag : string) : Prop :=
  obj_get (normalizeOptions chub raw) flag
  = match obj_get raw flag with
    | OBool b => OBool b
    | _ => setting chub flag
    end.

(** Property read on a value that is neither [null] nor [undefined]. *)
Definition readProp (v : value) (k : string) : value :=
  match prop v k with
  | Returns x => x
  | Throws _ => VUndefined
  end.

(** The part of a string before the first occurrence of a character. *)
Fixpoint upTo (c : ascii) (s : string) : string :=
  match s with
  | EmptyString => EmptyString
  | String d r => if Ascii.eqb d c then EmptyString else String d (upTo c r)
  end.

(** A value that is a string whenever it is truthy. *)
Definition textual (v : value) : Prop := v_truthy v = true -> exists s, v = VStr s.

Definition nonEmptyString (v : value) : Prop :=
  match v with
  | VStr s => s <> ""
  | _ => False
  end.

(** The request a search sends from world [w]. *)
Definition searchRequestOf (w : World) (options : obj) : Request :=
  searchRequest (buildQueryString (normalizeOptions (chub w) options)).

(** The remote call of a search fails: [fetch] rejects, the status is
    outside 200 to 299, or the body does not parse. *)
Definition search_fails (f : fetched) : Prop :=
  match f with
  | Rejects => True
  | Resolves r => ok r = false \/ json r = None
  end.

(** The container a search marks: the element behind
    [characterListContainer] when it is still in the document. *)
Definition live_container (w : World) : option Element :=
  match characterListContainer w with
  | Some e => if inDocument e then Some e else None
  | None => None
  end.

Definition fetchErrorToast : Toast :=
  {| toast_level := Error; toast_message := "An error occurred while searching CHub.";
     toast_title := Some "Fetch Error"; toast_onclick := None |}.

(** The world once [searchCharacters] has dropped a container that left
    the document and marked the live one as searching. *)
Definition markSearching (w : World) : World :=
  {| chub := chub w; chubCharacters := chubCharacters w;
     characterListContainer := option_map (classList_add "searching") (live_container w);
     toasts := toasts w; requests := requests w; dropped := dropped w |}.

Definition importFailedToast (url : string) : Toast :=
  {| toast_level := Info; toast_message := "Click to go to the character page";
     toast_title := Some "Custom content import failed";
     toast_onclick := Some (manualFallback url) |}.

Definition unknownTypeToast : Toast :=
  {| toast_level := Warning; toast_message := "Unknown content type";
     toast_title := None; toast_onclick := None |}.

(** A success response that names its kind but carries no
    [Content-Disposition] header. *)
Definition bareResponse (kind : string) : Response :=
  {| status := 200; statusText := "OK";
     headers := [("x-custom-content-type", kind)];
     json := None;
     blob := Some {| blob_bytes := "PNG"; blob_type := "image/png" |} |}.

(** A network whose primary import endpoint answers 404 and whose
    legacy endpoint serves a character card. *)
Definition legacyOnly (rq : Request) : fetched :=
  if String.eqb (req_url rq) primaryEndpoint
  then Resolves (jsonResponse 404 "Not Found" None)
  else Resolves (cardResponse "character" "attachment; filename=my-char.png").

(** ** Search form and its handler *)

(** [Math.max] and [Math.min] on two numbers: [NaN] when either is. *)
Definition js_max (a b : Js.number) : Js.number :=
  match a, b with
  | Js.Int x, Js.Int y => Js.Int (Z.max x y)
  | _, _ => Js.NaN
  end.

Definition js_min (a b : Js.number) : Js.number :=
  match a, b with
  | Js.Int x, Js.Int y => Js.Int (Z.min x y)
  | _, _ => Js.NaN
  end.

(** [clamp(value, min, max)] *)
Definition clamp (value min max : Js.number) : Js.number :=
  js_min (js_max value min) max.

(** What the handler reads of a form control. *)
Record Control : Type := {
  ctl_value : string;
  ctl_checked : bool
}.

(** [document.getElementById(id)?.value]; [None] stands for [undefined]. *)
Definition getVal (form : gmap string Control) (id : string) : option string :=
  match form !! id with
  | Some c => Some (ctl_value c)
  | None => None
  end.

(** [document.getElementById(id)?.checked] *)
Definition getChecked (form : gmap string Control) (id : string) : optval :=
  match form !! id with
  | Some c => OBool (ctl_checked c)
  | None => OUndefined
  end.

Definition stringOrUndefined (val : option string) : optval :=
  match val with
  | Some s => OStr s
  | None => OUndefined
  end.

(** [splitAndTrim] of [handleSearch], on the value read:
    [str.split(',').map(tag => tag.trim()).filter(tag => tag)], and the
    empty array when there is no value. *)
Definition splitAndTrim (val : option string) : list string :=
  match val with
  | Some str =>
      if String.eqb str "" then []
      else List.filter (fun tag => negb (String.eqb tag ""))
                       (map Js.trim (Js.split "," str))
  | None => []
  end.

(** What [handleSearch] reads of the event. *)
Record Event : Type := {
  ev_type : string;
  ev_key : option string;            (* e.key *)
  target_id : string;                (* e.target.id *)
  target_type : string;              (* e.target.type *)
  target_in_pageUp : bool;           (* e.target.closest('#pageUpButton') is not null *)
  target_in_pageDown : bool          (* e.target.closest('#pageDownButton') is not null *)
}.

(** [e.key !== 'Enter' && (e.target.type === 'text' || e.target.type === 'number')] *)
Definition otherKeyInField (e : Event) : bool :=
  negb (match ev_key e with Some k => String.eqb k "Enter" | None => false end)
  && (String.eqb (target_type e) "text" || String.eqb (target_type e) "number").

Definition onPageUp (e : Event) : bool :=
  String.eqb (target_id e) "pageUpButton" || target_in_pageUp e.

Definition onPageDown (e : Event) : bool :=
  String.eqb (target_id e) "pageDownButton" || target_in_pageDown e.

(** The trigger is one of the pagination controls. *)
Definition paginationTrigger (e : Event) : bool :=
  String.eqb (target_id e) "pageNumber" || String.eqb (target_id e) "pageUpButton"
  || String.eqb (target_id e) "pageDownButton" || target_in_pageUp e || target_in_pageDown e.

(** [getInt('pageNumber') || 1], a number. *)
Definition pageNumberOr1 (val : option string) : Js.number :=
  match js_or (getInt val) (ONum (Js.Int 1)) with
  | ONum x => x
  | _ => Js.NaN
  end.

Definition js_incr (x : Js.number) : Js.number :=
  match x with Js.Int n => Js.Int (n + 1) | Js.NaN => Js.NaN end.

Definition js_decr (x : Js.number) : Js.number :=
  match x with Js.Int n => Js.Int (n - 1) | Js.NaN => Js.NaN end.

(** [if (document.getElementById(id)) document.getElementById(id).value = v] *)
Definition setValue (id v : string) (form : gmap string Control) : gmap string Control :=
  match form !! id with
  | Some c => <[id := {| ctl_value := v; ctl_checked := ctl_checked c |}]> form
  | None => form
  end.

(** The object literal [options] of [handleSearch], keys in source
    order. *)
Definition gatherOptions (form : gmap string Control) (currentPage : Js.number) : obj :=
  [ ("searchTerm", stringOrUndefined (getVal form "characterSearchInput"));
    ("name_like", stringOrUndefined (getVal form "nameLikeInput"));
    ("includeTags", OTags (splitAndTrim (getVal form "includeTags")));
    ("excludeTags", OTags (splitAndTrim (getVal form "excludeTags")));
    ("min_tokens", getInt (getVal form "minTokensInput"));
    ("max_tokens", getInt (getVal form "maxTokensInput"));
    ("min_tags", getInt (getVal form "minTagsInput"));
    ("min_users_chatted", getInt (getVal form "minUsersChattedInput"));
    ("max_days_ago", getInt (getVal form "maxDaysAgoInput"));
    ("min_ai_rating", getInt (getVal form "minAiRatingInput"));
    ("language", stringOrUndefined (getVal form "languageInput"));
    ("nsfw", getChecked form "nsfwCheckbox");
    ("nsfl", getChecked form "nsflCheckbox");
    ("nsfw_only", getChecked form "nsfwOnlyCheckbox");
    ("require_images", getChecked form "requireImagesCheckbox");
    ("require_example_dialogues", getChecked form "requireExampleDialoguesCheckbox");
    ("require_alternate_greetings", getChecked form "requireAltGreetingsCheckbox");
    ("require_custom_prompt", getChecked form "requireCustomPromptCheckbox");
    ("require_expressions", getChecked form "requireExpressionsCheckbox");
    ("require_lore", getChecked form "requireLoreCheckbox");
    ("require_lore_embedded", getChecked form "requireLoreEmbeddedCheckbox");
    ("require_lore_linked", getChecked form "requireLoreLinkedCheckbox");
    ("recommended_verified", getChecked form "recommendedVerifiedCheckbox");
    ("inclusive_or", getChecked form "inclusiveOrCheckbox");
    ("include_forks", getChecked form "includeForksCheckbox");
    ("sort", stringOrUndefined (getVal form "sortOrder"));
    ("asc", getChecked form "sortAscCheckbox");
    ("first", getInt (getVal form "resultsPerPage"));
    ("page", ONum currentPage) ].

Definition isLowerLetter (c : ascii) : bool :=
  let n := nat_of_ascii c in Nat.leb 97 n && Nat.leb n 122.

Definition toUpperChar (c : ascii) : ascii :=
  if isLowerLetter c then ascii_of_nat (nat_of_ascii c - 32) else c.

(** [key.replace(/_([a-z])/g, g => g[1].toUpperCase())] *)
Fixpoint camelCase (key : string) : string :=
  match key with
  | EmptyString => EmptyString
  | String c r =>
      if Ascii.eqb c "_" then
        match r with
        | String d r' =>
            if isLowerLetter d then String (toUpperChar d) (camelCase r')
            else String c (camelCase r)
        | EmptyString => String c EmptyString
        end
      else String c (camelCase r)
  end.

(** The element id under which [handleSearch] looks for the checkbox of
    a settings key. *)
Definition checkboxIdOf (key : string) : string :=
  if String.eqb key "nsfw_only" then "nsfwOnlyCheckbox"
  else if String.eqb key "inclusive_or" then "inclusiveOrCheckbox"
  else if String.eqb key "recommended_verified" then "recommendedVerifiedCheckbox"
  else camelCase key ++ "Checkbox".

(** The loop over [Object.keys(defaultSettings)] that closes
    [handleSearch]: a boolean default whose checkbox exists takes the
    state of that checkbox. *)
Definition syncFlags (form : gmap string Control) (chub : gmap string optval)
  : gmap string optval :=
  fold_left
    (fun (m : gmap string optval) '(key, value) =>
       match value with
       | OBool _ =>
           if String.eqb key "findCount" then m
           else
             match form !! checkboxIdOf key with
             | Some checkbox => <[key := OBool (ctl_checked checkbox)]> m
             | None => m
             end
       | _ => m
       end)
    defaultSettings chub.

(** The state [handleSearch] works on: the controls of the document, the
    settings store, and the calls of the debounced
    [executeCharacterSearch] with their argument, oldest first. *)
Record Page : Type := {
  pg_form : gmap string Control;
  pg_chub : gmap string optval;
  pg_scheduled : list obj
}.

(** [handleSearch(e)] *)
Definition handleSearch (e : Event) (p : Page) : Page :=
  if String.eqb (ev_type e) "keyup" && otherKeyInField e then p
  else if String.eqb (ev_type e) "keydown" && otherKeyInField e then p
  else
    let currentPage := pageNumberOr1 (getVal (pg_form p) "pageNumber") in
    let currentPage :=
      if onPageUp e then js_incr currentPage
      else if onPageDown e then js_decr currentPage
      else currentPage in
    let currentPage := clamp currentPage (Js.Int 1) (Js.Int Js.MAX_SAFE_INTEGER) in
    let form := setValue "pageNumber" (Js.numberToString currentPage) (pg_form p) in
    let options := gatherOptions form currentPage in
    let reset := negb (paginationTrigger e) in
    let options := if reset then obj_set "page" (ONum (Js.Int 1)) options else options in
    let form := if reset then setValue "pageNumber" "1" form else form in
    let scheduled := (pg_scheduled p ++ [options])%list in
    let chub :=
      if (match form !! "resultsPerPage" with Some _ => true | None => false end)
         && truthy (obj_get options "first")
      then <["findCount" := obj_get options "first"]> (pg_chub p)
      else pg_chub p in
    {| pg_form := form; pg_chub := syncFlags form chub; pg_scheduled := scheduled |}.

(** The element ids of the markup that [createPopupLayout] returns. *)
Definition popupIds : list string :=
  [ "list-and-search-wrapper"; "characterSearchInput"; "nameLikeInput"; "includeTags";
    "inclusiveOrCheckbox"; "excludeTags"; "minTokensInput"; "maxTokensInput";
    "minTagsInput"; "minUsersChattedInput"; "maxDaysAgoInput"; "minAiRatingInput";
    "nsfwCheckbox"; "nsflCheckbox"; "nsfwOnlyCheckbox"; "requireImagesCheckbox";
    "requireExampleDialoguesCheckbox"; "requireAltGreetingsCheckbox";
    "requireCustomPromptCheckbox"; "requireExpressionsCheckbox"; "requireLoreCheckbox";
    "requireLoreEmbeddedCheckbox"; "requireLoreLinkedCheckbox";
    "recommendedVerifiedCheckbox"; "includeForksCheckbox"; "languageInput"; "sortOrder";
    "sortAscCheckbox"; "resultsPerPage"; "pageDownButton"; "pageNumber"; "pageUpButton";
    "characterSearchButton" ].

(** ** Avatar download *)

(** A call of [fetch] with literal headers. *)
Record Call : Type := {
  call_url : string;
  call_method : string;
  call_headers : list (string * string);
  call_body : option value
}.

Definition API_ENDPOINT_DOWNLOAD : string := "https://api.chub.ai/api/characters/download".

Definition avatarCall (fullPath : string) : Call :=
  {| call_url := "https://avatars.charhub.io/avatars/" ++ fullPath ++ "/avatar.webp";
     call_method := "GET"; call_headers := []; call_body := None |}.

Definition cardCall (fullPath : string) : Call :=
  {| call_url := API_ENDPOINT_DOWNLOAD; call_method := "POST";
     call_headers := [("Content-Type", "application/json")];
     call_body := Some (VObj [("fullPath", VStr fullPath); ("format", VStr "tavern");
                              ("version", VStr "main")]) |}.

(** The part of [getCharacterAvatar] after the requests: the blob of a
    success response whose content type says image, [null] otherwise and
    when reading the body rejects. *)
Definition imageOf (response : Response) : option Blob :=
  if negb (ok response) then None
  else
    match headers_get response "content-type" with
    | Some contentType =>
        if negb (String.eqb contentType "") && Js.startsWith "image/" contentType
        then blob response
        else None
    | None => None
    end.

Section Avatar.

Variable net : Call -> fetched.

(** [getCharacterAvatar(fullPath)]: the value it resolves with ([None]
    for [null]) and the calls of [fetch] it made.  The whole body sits
    in a [try] whose [catch] returns [null]. *)
Definition getCharacterAvatar (fullPath : string) : option Blob * list Call :=
  match net (avatarCall fullPath) with
  | Rejects => (None, [avatarCall fullPath])
  | Resolves response =>
      if negb (ok response) then
        match net (cardCall fullPath) with
        | Rejects => (None, [avatarCall fullPath; cardCall fullPath])
        | Resolves response => (imageOf response, [avatarCall fullPath; cardCall fullPath])
        end
      else (imageOf response, [avatarCall fullPath])
  end.

End Avatar.

(** ** More vocabulary *)

Fixpoint allChars (P : ascii -> bool) (s : string) : bool :=
  match s with
  | EmptyString => true
  | String c r => P c && allChars P r
  end.

(** The characters of a serialised query: the unreserved ones, the
    percent sign and the plus of an encoded character, and the two
    separators. *)
Definition queryChar (c : ascii) : bool :=
  UrlEncoded.unreserved (nat_of_ascii c)
  || Ascii.eqb c "%" || Ascii.eqb c "+" || Ascii.eqb c "&" || Ascii.eqb c "=".

Definition notComma (c : ascii) : bool := negb (Ascii.eqb c ",").

(** A tag as [splitAndTrim] leaves it: not empty, without comma, and
    unchanged by [trim]. *)
Definition cleanTag (tag : string) : Prop :=
  tag <> "" /\ allChars notComma tag = true /\ Js.trim tag = tag.

Definition samplePage : Page :=
  {| pg_form :=
       list_to_map
         [ ("pageNumber", {| ctl_value := "3"; ctl_checked := false |});
           ("includeTags", {| ctl_value := "a, b ,,c"; ctl_checked := false |});
           ("resultsPerPage", {| ctl_value := "10"; ctl_checked := false |});
           ("nsfwCheckbox", {| ctl_value := "on"; ctl_checked := true |});
           ("requireAltGreetingsCheckbox", {| ctl_value := "on"; ctl_checked := true |}) ];
     pg_chub := list_to_map defaultSettings;
     pg_scheduled := [] |}.

Definition clickOn (id : string) : Event :=
  {| ev_type := "click"; ev_key := None; target_id := id; target_type := "";
     target_in_pageUp := String.eqb id "pageUpButton";
     target_in_pageDown := String.eqb id "pageDownButton" |}.

(** The two early returns of [handleSearch]: a key other than Enter
    released or pressed in a text or number field. *)
Definition ignoredEvent (e : Event) : bool :=
  (String.eqb (ev_type e) "keyup" && otherKeyInField e)
  || (String.eqb (ev_type e) "keydown" && otherKeyInField e).

Definition apiErrorToast (detail : string) : Toast :=
  {| toast_level := Error; toast_message := "CHub search failed: " ++ detail;
     toast_title := Some "API Error"; toast_onclick := None |}.

(** The string starts with a character that is not white space, or is
    empty. *)
Definition headNotSpace (s : string) : Prop :=
  match s with
  | String c _ => Js.isWhiteSpace c = false
  | EmptyString => True
  end.

Definition notQuote (c : ascii) : bool := negb (Ascii.eqb c doubleQuote).

(** A response with a JSON array of nodes. *)
Definition nodesResponse (nodes : list value) : Response :=
  jsonResponse 200 "OK" (Some (VObj [("nodes", VArr nodes)])).

(** The names that every object inherits from [Object.prototype]: a
    read [paramMap[name]] finds a function or an object under them,
    though the table has no such key. *)
Definition objectPrototypeMembers : list string :=
  [ "constructor"; "__defineGetter__"; "__defineSetter__"; "hasOwnProperty";
    "__lookupGetter__"; "__lookupSetter__"; "isPrototypeOf"; "propertyIsEnumerable";
    "toString"; "valueOf"; "__proto__"; "toLocaleString" ].

(** An options object none of whose names is inherited from
    [Object.prototype]: for such names [paramMap[name]] is the lookup
    among the own keys of the table. *)
Definition plainNames (o : obj) : Prop :=
  Forall (fun optionKey => mem optionKey objectPrototypeMembers = false) (map fst o).

(** A value that is not a number beyond the safe integers: JavaScript
    holds the safe integers exactly and prints them in decimal digits,
    as [Js.decimal] does. *)
Definition safeValue (v : optval) : Prop :=
  match v with
  | ONum (Js.Int n) => Z.abs n <= Js.MAX_SAFE_INTEGER
  | _ => True
  end.

(** The numbers that [String(v)] prints are safe integers. *)
Fixpoint safeNumbers (v : value) : bool :=
  match v with
  | VNum n => Z.leb (Z.abs n) Js.MAX_SAFE_INTEGER
  | VArr items => forallb safeNumbers items
  | _ => true
  end.

(** A response outside 200 to 299 with a JSON body. *)
Definition errorResponse (body : value) : Response :=
  jsonResponse 429 "Too Many Requests" (Some body).

(** A network that is down: every request is rejected. *)
Definition offline (rq : Request) : fetched := Rejects.

(** A network whose primary import endpoint answers 404 and whose
    legacy endpoint cannot be reached. *)
Definition legacyUnreachable (rq : Request) : fetched :=
  if String.eqb (req_url rq) primaryEndpoint
  then Resolves (jsonResponse 404 "Not Found" None)
  else Rejects.

(** A success response with the headers of a character card whose body
    cannot be read. *)
Definition unreadableCard : Response :=
  {| status := 200; statusText := "OK";
     headers := [("x-custom-content-type", "character");
                 ("content-disposition", "attachment; filename=my-char.png")];
     json := None; blob := None |}.

(** * Evaluation on sample inputs *)

Example trim_ex : Js.trim "  alice/my-char " = "alice/my-char".
Proof. reflexivity. Qed.

Example split_ex : Js.split "/" "alice/my-char/x" = ["alice"; "my-char"; "x"].
Proof. reflexivity. Qed.

Example split_ex2 : Js.split "filename=" "attachment; filename=a.png" = ["attachment; "; "a.png"].
Proof. reflexivity. Qed.

Example parseInt_ex :
  Js.parseInt10 "42" = Js.Int 42 /\ Js.parseInt10 " -7px" = Js.Int (-7) /\
  Js.parseInt10 "abc" = Js.NaN /\ Js.parseInt10 "" = Js.NaN /\
  Js.parseInt10 "4.7" = Js.Int 4 /\ Js.parseInt10 "1e3" = Js.Int 1.
Proof. repeat split; reflexivity. Qed.

Example buildQueryString_ex :
  buildQueryString [("includeTags", OTags ["fantasy"; "elf"]); ("inclusive_or", OBool false);
                    ("page", ONum (Js.Int 2)); ("first", ONum (Js.Int 10))]
  = "tags=fantasy%2Celf&inclusive_or=false&page=2&first=10".
Proof. reflexivity. Qed.

Example normalizeNode_ex :
  normalizeNode (VObj [("fullPath", VStr "alice/my-char"); ("name", VStr "X")])
  = Returns {| url := VStr placeholder; description := VStr "No description.";
               name := VStr "X"; fullPath := VStr "alice/my-char";
               tags := VArr []; author := VStr "alice" |}.
Proof. reflexivity. Qed.

Example search_ok_ex :
  fst (searchCharacters
         (fun _ => Resolves (jsonResponse 200 "OK"
            (Some (VObj [("nodes", VArr [VObj [("fullPath", VStr "alice/my-char");
                                               ("name", VStr "X")]])]))))
         [] emptyWorld)
  = Returns [ {| url := VStr placeholder; description := VStr "No description.";
                 name := VStr "X"; fullPath := VStr "alice/my-char";
                 tags := VArr []; author := VStr "alice" |} ].
Proof. vm_compute. reflexivity. Qed.

Example search_request_ex :
  map req_url (requests (snd (searchCharacters (fun _ => Rejects)
                                [("searchTerm", OStr "elf mage")] emptyWorld)))
  = ["https://inference.chub.ai/search?search=elf+mage&first=30&nsfw=false&nsfl=false&nsfw_only=false&require_images=false&require_example_dialogues=false&require_alternate_greetings=false&require_custom_prompt=false&require_expressions=false&require_lore=false&require_lore_embedded=false&require_lore_linked=false&inclusive_or=false&recommended_verified=false&sort=download_count&page=1&asc=false&include_forks=true"].
Proof. vm_compute. reflexivity. Qed.

Example download_ex :
  dropped (snd (downloadCharacter
                  (fun rq => if String.eqb (req_url rq) primaryEndpoint
                             then Resolves (jsonResponse 404 "Not Found" None)
                             else Resolves (cardResponse "character"
                                              ("attachment; filename=" ++ String doubleQuote ("my-char.png" ++ String doubleQuote ""))))
                  " alice/my-char " emptyWorld))
  = [[ {| file_bits := [ {| blob_bytes := "PNG"; blob_type := "image/png" |} ];
          file_name := "my-char.png"; file_type := "image/png" |} ]].
Proof. vm_compute. reflexivity. Qed.

(** * Strings and numbers *)

Lemma slice0_length (n : nat) (s : string) :
  (String.length (Js.slice0 n s) <= n)%nat.
Proof.
  unfold Js.slice0. revert s. induction n as [|n IH]; intros [|c r]; simpl; try lia.
  specialize (IH r). lia.
Qed.

Lemma slice0_empty (n : nat) : Js.slice0 n "" = "".
Proof. destruct n; reflexivity. Qed.

Lemma slice0_short (n : nat) (s : string) :
  (String.length s <= n)%nat -> Js.slice0 n s = s.
Proof.
  unfold Js.slice0. revert n. induction s as [|c r IH]; intros [|n] H; simpl in *;
    try reflexivity; try lia.
  f_equal. apply IH. lia.
Qed.

(** The digits of a decimal numeral read back to the number it denotes. *)
Lemma digitsPrefix_of_uint_acc (d : uint) (acc : positive) :
  Js.digitsPrefix (NilEmpty.string_of_uint d) (Z.pos acc) = Z.pos (Pos.of_uint_acc d acc).
Proof.
  revert acc. induction d; intros acc; simpl; try reflexivity;
    match goal with
    | |- Js.digitsPrefix _ ?z = Z.pos (Pos.of_uint_acc _ ?p) =>
        replace z with (Z.pos p) by (cbn; lia); apply IHd
    end.
Qed.

Lemma digitsPrefix_of_uint (d : uint) :
  Js.digitsPrefix (NilEmpty.string_of_uint d) 0 = Z.of_N (Pos.of_uint d).
Proof.
  induction d; simpl; try reflexivity; try exact IHd;
    match goal with
    | |- Js.digitsPrefix _ ?z = Z.pos (Pos.of_uint_acc _ ?p) =>
        change z with (Z.pos p); apply digitsPrefix_of_uint_acc
    end.
Qed.

Lemma digit_is_plain (c : ascii) :
  Js.startsWithDigit (String c "") = true ->
  Js.isWhiteSpace c = false /\ c <> "-"%char /\ c <> "+"%char.
Proof.
  destruct c as [[] [] [] [] [] [] [] []]; vm_compute; intros H;
    try discriminate H; repeat split; discriminate.
Qed.

(** On a string that opens with a digit, and on such a string behind a
    minus sign, [parseInt] is the value of the digit prefix. *)
Lemma parseInt10_digits (s : string) :
  Js.startsWithDigit s = true ->
  Js.parseInt10 s = Js.Int (Js.digitsPrefix s 0) /\
  Js.parseInt10 (String "-" s) = Js.Int (- Js.digitsPrefix s 0).
Proof.
  intros Hs. destruct s as [|c r]; [discriminate|].
  assert (Hc : Js.startsWithDigit (String c "") = true) by exact Hs.
  destruct (digit_is_plain c Hc) as (Hws & Hm & Hp).
  unfold Js.parseInt10. split.
  - simpl Js.trimStart. rewrite Hws.
    destruct (Ascii.eqb_spec c "-"); [congruence|].
    destruct (Ascii.eqb_spec c "+"); [congruence|].
    assert (E : (match String c r with
                 | String "+"%char r0 => (1, r0)
                 | String "-"%char r0 => (-1, r0)
                 | _ => (1, String c r)
                 end) = (1, String c r)).
    { clear -Hm Hp. destruct c as [[] [] [] [] [] [] [] []]; try reflexivity; congruence. }
    rewrite E. rewrite Hs. f_equal; lia.
  - change (Js.trimStart (String "-" (String c r))) with (String "-" (String c r)).
    cbv iota beta. rewrite Hs. f_equal; lia.
Qed.

Lemma startsWithDigit_of_uint (d : uint) :
  d <> Nil -> Js.startsWithDigit (NilEmpty.string_of_uint d) = true.
Proof. destruct d; intros H; try congruence; reflexivity. Qed.

Lemma parseInt10_of_uint (d : uint) :
  d <> Nil ->
  Js.parseInt10 (NilEmpty.string_of_uint d) = Js.Int (Z.of_N (Pos.of_uint d)) /\
  Js.parseInt10 (String "-" (NilEmpty.string_of_uint d)) = Js.Int (- Z.of_N (Pos.of_uint d)).
Proof.
  intros Hd. rewrite <- digitsPrefix_of_uint.
  apply parseInt10_digits, startsWithDigit_of_uint, Hd.
Qed.

(** [parseInt] reads back what [toString] prints. *)
Lemma parseInt10_decimal (n : Z) : Js.parseInt10 (Js.decimal n) = Js.Int n.
Proof.
  destruct n as [|p|p]; [reflexivity| |]; unfold Js.decimal; simpl;
    pose proof (Unsigned.to_uint_nonnil p) as Hn;
    destruct (parseInt10_of_uint (Pos.to_uint p) Hn) as [H1 H2];
    rewrite Unsigned.of_to in H1, H2.
  - unfold NilZero.string_of_uint. destruct (Pos.to_uint p); try congruence; exact H1.
  - unfold NilZero.string_of_uint. destruct (Pos.to_uint p); try congruence; exact H2.
Qed.

Lemma parseInt10_NaN_text : Js.parseInt10 "NaN" = Js.NaN.
Proof. reflexivity. Qed.

(** * Objects *)

Lemma obj_get_set_eq (k : string) (v : optval) (o : obj) :
  obj_get (obj_set k v o) k = v.
Proof.
  induction o as [|[k' v'] r IH]; simpl.
  - now rewrite String.eqb_refl.
  - destruct (String.eqb_spec k k') as [->|Hne]; simpl.
    + now rewrite String.eqb_refl.
    + destruct (String.eqb_spec k k'); [congruence | exact IH].
Qed.

Lemma obj_get_set_ne (k k' : string) (v : optval) (o : obj) :
  k <> k' -> obj_get (obj_set k v o) k' = obj_get o k'.
Proof.
  intros Hne. induction o as [|[k0 v0] r IH]; simpl.
  - destruct (String.eqb_spec k' k); [congruence | reflexivity].
  - destruct (String.eqb_spec k k0) as [->|Hk]; simpl.
    + destruct (String.eqb_spec k' k0); [congruence | reflexivity].
    + destruct (String.eqb_spec k' k0); [reflexivity | exact IH].
Qed.

Lemma obj_set_keys (k : string) (v : optval) (o : obj) :
  map fst (obj_set k v o) = if mem k (map fst o) then map fst o else (map fst o ++ [k])%list.
Proof.
  unfold mem. induction o as [|[k' v'] r IH]; simpl; [reflexivity|].
  destruct (String.eqb_spec k k') as [->|Hne]; simpl; [reflexivity|].
  rewrite IH. destruct (existsb (String.eqb k) (map fst r)); reflexivity.
Qed.

Lemma mem_In (x : string) (l : list string) : mem x l = true <-> In x l.
Proof.
  unfold mem. rewrite existsb_exists. split.
  - intros (y & Hy & E). apply String.eqb_eq in E. now subst.
  - intros H. exists x. split; [exact H | apply String.eqb_refl].
Qed.

Lemma mem_not_In (x : string) (l : list string) : mem x l = false <-> ~ In x l.
Proof.
  rewrite <- mem_In. destruct (mem x l); split; congruence.
Qed.

Lemma wf_obj_set (k : string) (v : optval) (o : obj) :
  wf_obj o -> wf_obj (obj_set k v o).
Proof.
  unfold wf_obj. intros H. rewrite obj_set_keys.
  destruct (mem k (map fst o)) eqn:E; [exact H|].
  apply mem_not_In in E. apply NoDup_ListNoDup, List.NoDup_app. repeat split.
  - now apply NoDup_ListNoDup.
  - apply NoDup_ListNoDup, NoDup_singleton.
  - intros x Hx [<-|[]]. exact (E Hx).
Qed.

Lemma obj_get_absent (o : obj) (k : string) :
  ~ In k (map fst o) -> obj_get o k = OUndefined.
Proof.
  induction o as [|[k' v'] r IH]; simpl; [reflexivity|]. intros H.
  destruct (String.eqb_spec k k') as [->|Hne]; [tauto|]. apply IH. tauto.
Qed.

(** * Option normaliser *)

Lemma boolean_or_idem (v d : optval) : boolean_or (boolean_or v d) d = boolean_or v d.
Proof. destruct v; simpl; try reflexivity; destruct d; reflexivity. Qed.

Lemma fold_fromSettings_get (chub : gmap string optval) (flags : list string) (o : obj) (k : string) :
  obj_get (fold_left (fromSettings chub) flags o) k
  = if mem k flags then boolean_or (obj_get o k) (setting chub k) else obj_get o k.
Proof.
  revert o. induction flags as [|a l IH]; intros o; [reflexivity|].
  simpl fold_left. rewrite IH. unfold fromSettings at 1 2. unfold mem. simpl existsb.
  fold (mem k l). destruct (String.eqb_spec k a) as [->|Hne]; simpl.
  - rewrite obj_get_set_eq, boolean_or_idem. now destruct (mem a l).
  - rewrite obj_get_set_ne by congruence. reflexivity.
Qed.

Lemma fold_fromSettings_wf (chub : gmap string optval) (flags : list string) (o : obj) :
  wf_obj o -> wf_obj (fold_left (fromSettings chub) flags o).
Proof.
  revert o. induction flags as [|a l IH]; intros o H; [exact H|].
  simpl. apply IH, wf_obj_set, H.
Qed.

Lemma normalizeOptions_wf (chub : gmap string optval) (o : obj) :
  wf_obj o -> wf_obj (normalizeOptions chub o).
Proof.
  intros H. unfold normalizeOptions.
  do 4 apply wf_obj_set. apply fold_fromSettings_wf, wf_obj_set, H.
Qed.

(** What normalisation leaves in a key it completes from the settings. *)
Lemma normalizeOptions_settingsFlag (chub : gmap string optval) (o : obj) (k : string) :
  In k settingsFlags ->
  obj_get (normalizeOptions chub o) k = boolean_or (obj_get o k) (setting chub k).
Proof.
  intros Hk. unfold normalizeOptions.
  assert (Hne : k <> "first" /\ k <> "sort" /\ k <> "page" /\ k <> "asc" /\ k <> "include_forks").
  { repeat split; intros ->; apply mem_In in Hk; discriminate Hk. }
  destruct Hne as (H1 & H2 & H3 & H4 & H5).
  rewrite !obj_get_set_ne by congruence.
  rewrite fold_fromSettings_get. apply mem_In in Hk. rewrite Hk.
  rewrite obj_get_set_ne by congruence. reflexivity.
Qed.

Lemma normalizeOptions_include_forks (chub : gmap string optval) (o : obj) :
  obj_get (normalizeOptions chub o) "include_forks"
  = boolean_or (obj_get o "include_forks") (OBool true).
Proof.
  unfold normalizeOptions. rewrite obj_get_set_eq.
  rewrite !obj_get_set_ne by discriminate.
  rewrite fold_fromSettings_get. change (mem "include_forks" settingsFlags) with false.
  cbv iota. rewrite obj_get_set_ne by discriminate. reflexivity.
Qed.

(** Keys that normalisation does not write keep their value. *)
Lemma normalizeOptions_other (chub : gmap string optval) (o : obj) (k : string) :
  ~ In k ("first" :: "sort" :: "page" :: "asc" :: booleanFlags) ->
  obj_get (normalizeOptions chub o) k = obj_get o k.
Proof.
  intros Hk. unfold normalizeOptions.
  assert (H1 : k <> "first") by (intros ->; apply Hk; simpl; tauto).
  assert (H2 : k <> "sort") by (intros ->; apply Hk; simpl; tauto).
  assert (H3 : k <> "page") by (intros ->; apply Hk; simpl; tauto).
  assert (H4 : k <> "asc") by (intros ->; apply Hk; simpl; tauto).
  assert (H5 : k <> "include_forks").
  { intros ->. apply Hk. do 4 right. unfold booleanFlags. apply in_or_app. right. now left. }
  assert (H6 : mem k settingsFlags = false).
  { apply mem_not_In. intros H. apply Hk. do 4 right. unfold booleanFlags.
    apply in_or_app. now left. }
  rewrite !obj_get_set_ne by congruence.
  rewrite fold_fromSettings_get, H6. rewrite obj_get_set_ne by congruence. reflexivity.
Qed.

(** * Query encoder *)

Lemma assoc_In (t : list (string * string)) (k a : string) :
  assoc t k = Some a -> In (k, a) t.
Proof.
  induction t as [|[k0 a0] r IH]; simpl; [discriminate|].
  destruct (String.eqb_spec k k0) as [->|Hne]; intros H.
  - left. congruence.
  - right. now apply IH.
Qed.

Lemma assoc_inj (t : list (string * string)) (k k' a : string) :
  NoDup (map snd t) -> assoc t k = Some a -> assoc t k' = Some a -> k = k'.
Proof.
  induction t as [|[k0 a0] r IH]; simpl; [discriminate|].
  intros Hnd H1 H2. apply NoDup_ListNoDup in Hnd. inversion Hnd as [|? ? Hnotin Hnd']; subst.
  destruct (String.eqb_spec k k0) as [->|Hk], (String.eqb_spec k' k0) as [->|Hk'].
  - reflexivity.
  - exfalso. apply Hnotin. injection H1 as ->.
    apply assoc_In in H2. apply (in_map snd) in H2. exact H2.
  - exfalso. apply Hnotin. injection H2 as ->.
    apply assoc_In in H1. apply (in_map snd) in H1. exact H1.
  - apply IH; [now apply NoDup_ListNoDup | assumption | assumption].
Qed.

Lemma paramTable_apiKeys_NoDup : NoDup (map snd paramTable).
Proof. apply (bool_decide_unpack _). vm_compute. reflexivity. Qed.

(** No two option names share an API parameter. *)
Lemma paramMap_inj (k k' a : string) :
  paramMap k = Some a -> paramMap k' = Some a -> k = k'.
Proof. apply assoc_inj, paramTable_apiKeys_NoDup. Qed.

Lemma encodeEntry_key (k : string) (v : optval) (p : string * string) :
  In p (encodeEntry k v) -> paramMap k = Some (fst p).
Proof.
  unfold encodeEntry. destruct (paramMap k) as [a|]; [|intros []].
  destruct (meaningful v); [|intros []].
  destruct (mem a tagApiKeys && isArray v).
  - destruct v; try (intros []).
    destruct (Nat.ltb 0 (length tags0)); [|intros []].
    destruct (negb _); [|intros []]. intros [<-|[]]. reflexivity.
  - destruct (mem a numericApiKeys).
    + destruct (Js.parseInt10 _); [intros []|]. intros [<-|[]]. reflexivity.
    + intros [<-|[]]. reflexivity.
Qed.

Lemma fold_params (o : obj) (acc : list (string * string)) :
  fold_left (fun params '(optionKey, value) => (params ++ encodeEntry optionKey value)%list) o acc
  = (acc ++ buildParams o)%list.
Proof.
  unfold buildParams. revert acc. induction o as [|[k v] r IH]; intros acc; simpl.
  - now rewrite app_nil_r.
  - rewrite IH. rewrite (IH (encodeEntry k v)). now rewrite app_assoc.
Qed.

(** The loop appends, entry after entry, what [encodeEntry] gives. *)
Lemma buildParams_cons (k : string) (v : optval) (o : obj) :
  buildParams ((k, v) :: o) = (encodeEntry k v ++ buildParams o)%list.
Proof. unfold buildParams at 1. simpl. apply fold_params. Qed.

Lemma getAll_app (a : string) (l1 l2 : list (string * string)) :
  getAll a (l1 ++ l2) = (getAll a l1 ++ getAll a l2)%list.
Proof. unfold getAll. now rewrite List.filter_app, map_app. Qed.

Lemma getAll_encodeEntry_other (a k k0 : string) (v : optval) :
  paramMap k0 = Some a -> k <> k0 -> getAll a (encodeEntry k v) = [].
Proof.
  intros H0 Hne. unfold getAll.
  assert (E : List.filter (fun p => String.eqb (fst p) a) (encodeEntry k v) = []).
  { destruct (List.filter _ _) as [|p l] eqn:F; [reflexivity|]. exfalso.
    assert (Hin : In p (List.filter (fun p => String.eqb (fst p) a) (encodeEntry k v)))
      by (rewrite F; now left).
    apply List.filter_In in Hin. destruct Hin as [Hin Hp].
    apply String.eqb_eq in Hp. apply encodeEntry_key in Hin. rewrite Hp in Hin.
    apply Hne. exact (paramMap_inj _ _ _ Hin H0). }
  now rewrite E.
Qed.

Lemma encodeEntry_undefined (k : string) : encodeEntry k OUndefined = [].
Proof. unfold encodeEntry. now destruct (paramMap k). Qed.

Lemma getAll_buildParams_absent (a k0 : string) (o : obj) :
  paramMap k0 = Some a -> ~ In k0 (map fst o) -> getAll a (buildParams o) = [].
Proof.
  intros H0. induction o as [|[k v] r IH]; intros Hk; [reflexivity|].
  rewrite buildParams_cons, getAll_app. simpl in Hk.
  rewrite (getAll_encodeEntry_other a k k0) by (auto; intros ->; tauto).
  apply IH. tauto.
Qed.

(** The values the encoded query holds under an API key are those the
    one option that maps to it contributes. *)
Lemma getAll_buildParams (a k0 : string) (o : obj) :
  wf_obj o -> paramMap k0 = Some a ->
  getAll a (buildParams o) = getAll a (encodeEntry k0 (obj_get o k0)).
Proof.
  intros Hwf H0. induction o as [|[k v] r IH].
  - simpl. now rewrite encodeEntry_undefined.
  - unfold wf_obj in Hwf. simpl in Hwf. apply NoDup_ListNoDup in Hwf.
    inversion Hwf as [|? ? Hnotin Hnd]; subst.
    rewrite buildParams_cons, getAll_app. simpl obj_get.
    destruct (String.eqb_spec k0 k) as [->|Hne].
    + rewrite (getAll_buildParams_absent a k r H0 Hnotin). now rewrite app_nil_r.
    + rewrite (getAll_encodeEntry_other a k k0) by auto.
      apply IH. now apply NoDup_ListNoDup.
Qed.

Lemma has_getAll (a : string) (params : list (string * string)) :
  has a params = false <-> getAll a params = [].
Proof.
  unfold has, getAll. induction params as [|p l IH]; simpl; [tauto|].
  destruct (String.eqb (fst p) a); simpl; [split; discriminate | exact IH].
Qed.

(** * Settings store *)

Lemma seed_lookup (l : obj) (m : gmap string optval) (k : string) :
  fold_left
    (fun (m : gmap string optval) '(key, value) =>
       match m !! key with
       | Some _ => m
       | None => <[key := value]> m
       end) l m !! k
  = match m !! k with
    | Some x => Some x
    | None => if mem k (map fst l) then Some (obj_get l k) else None
    end.
Proof.
  revert m. induction l as [|[k0 v0] r IH]; intros m.
  - simpl. now destruct (m !! k).
  - simpl fold_left. rewrite IH. unfold mem. simpl existsb. simpl obj_get.
    fold (mem k (map fst r)).
    destruct (m !! k0) eqn:E0.
    + destruct (m !! k) eqn:Ek; [reflexivity|].
      destruct (String.eqb_spec k k0) as [->|Hne]; [congruence | reflexivity].
    + destruct (String.eqb_spec k k0) as [->|Hne].
      * rewrite lookup_insert_eq, E0. reflexivity.
      * rewrite lookup_insert_ne by congruence. reflexivity.
Qed.

(** After [loadSettings], a key of [defaultSettings] other than
    [findCount] holds the persisted value when there was one and the
    built-in default otherwise. *)
Lemma loadSettings_layers (Number : optval -> optval) (persisted : option (gmap string optval))
      (k : string) :
  In k (map fst defaultSettings) -> k <> "findCount" ->
  loadSettings Number persisted !! k
  = Some (match (match persisted with Some m => m | None => ∅ end) !! k with
          | Some v => v
          | None => obj_get defaultSettings k
          end).
Proof.
  intros Hk Hne. unfold loadSettings. rewrite lookup_insert_ne by congruence.
  rewrite seed_lookup. apply mem_In in Hk. rewrite Hk.
  now destruct (_ !! k).
Qed.

Lemma loadSettings_pre_seeded (Number : optval -> optval) (persisted : option (gmap string optval)) :
  pre_seeded (loadSettings Number persisted).
Proof.
  intros k Hk. destruct (String.eqb_spec k "findCount") as [->|Hne].
  - unfold loadSettings. rewrite lookup_insert_eq. eauto.
  - rewrite loadSettings_layers by assumption. eauto.
Qed.

Lemma defaultSettings_pre_seeded : pre_seeded (list_to_map defaultSettings).
Proof.
  intros k Hk. simpl in Hk.
  repeat (destruct Hk as [<-|Hk]; [eexists; vm_compute; reflexivity|]). destruct Hk.
Qed.

Lemma settingsFlags_in_defaults (flag : string) :
  In flag settingsFlags -> In flag (map fst defaultSettings).
Proof.
  intros H. apply mem_In. simpl in H.
  repeat (destruct H as [<-|H]; [reflexivity|]). destruct H.
Qed.

Lemma booleanFlags_cases (flag : string) :
  In flag booleanFlags -> In flag settingsFlags \/ flag = "include_forks".
Proof.
  unfold booleanFlags. intros H. apply in_app_or in H. destruct H as [H|[<-|[]]]; auto.
Qed.

(** * Claims about option normalisation *)

(** C1, as the code has it: every boolean requirement flag other than
    [include_forks] takes the explicit boolean of the raw options when
    there is one and otherwise the value the pre-seeded settings store
    holds for it at the call; [include_forks] takes the explicit boolean
    when there is one and otherwise [true]. *)
Theorem flag_resolution (chub : gmap string optval) (raw : obj) (flag : string) :
  pre_seeded chub ->
  In flag booleanFlags ->
  obj_get (normalizeOptions chub raw) flag
  = match obj_get raw flag with
    | OBool b => OBool b
    | _ => if String.eqb flag "include_forks" then OBool true else setting chub flag
    end
  /\ (flag <> "include_forks" -> exists v, chub !! flag = Some v /\ setting chub flag = v).
Proof.
  intros Hseed Hflag. destruct (booleanFlags_cases flag Hflag) as [Hs| ->].
  - assert (Hne : flag <> "include_forks")
      by (intros ->; apply mem_In in Hs; discriminate Hs).
    split.
    + rewrite normalizeOptions_settingsFlag by assumption.
      destruct (String.eqb_spec flag "include_forks"); [congruence|].
      unfold boolean_or. now destruct (obj_get raw flag).
    + intros _. destruct (Hseed flag (settingsFlags_in_defaults flag Hs)) as [v Hv].
      exists v. split; [exact Hv|]. unfold setting. now rewrite Hv.
  - split; [|congruence]. rewrite normalizeOptions_include_forks.
    unfold boolean_or. now destruct (obj_get raw "include_forks").
Qed.

Lemma flag_resolution_witness :
  obj_get (normalizeOptions (list_to_map defaultSettings) [("nsfw", OBool true)]) "nsfl"
  = OBool false.
Proof.
  destruct (flag_resolution (list_to_map defaultSettings) [("nsfw", OBool true)] "nsfl"
              defaultSettings_pre_seeded) as [H _].
  - unfold booleanFlags, settingsFlags. simpl. tauto.
  - rewrite H. vm_compute. reflexivity.
Defined.

(** C1 as stated fails for [include_forks]: with the store seeded from
    the built-in defaults and no [include_forks] in the raw options, the
    normalised value is [true] while the store holds nothing under that
    name; a stored [false] is not used either. *)
Lemma include_forks_ignores_settings :
  pre_seeded (list_to_map defaultSettings) /\
  In "include_forks" booleanFlags /\
  obj_get (normalizeOptions (list_to_map defaultSettings) []) "include_forks" = OBool true /\
  setting (list_to_map defaultSettings) "include_forks" = OUndefined /\
  ~ follows_settings (list_to_map defaultSettings) [] "include_forks" /\
  ~ follows_settings (<["include_forks" := OBool false]> (list_to_map defaultSettings)) []
      "include_forks".
Proof.
  split; [exact defaultSettings_pre_seeded|].
  split; [unfold booleanFlags; apply in_or_app; right; now left|].
  split; [vm_compute; reflexivity|].
  split; [vm_compute; reflexivity|].
  split; unfold follows_settings; rewrite normalizeOptions_include_forks;
    vm_compute; discriminate.
Qed.

(** C10: when the raw options carry no boolean [include_forks],
    normalisation gives [true] whatever the settings store holds, and
    [include_forks] is the one boolean flag without an entry in
    [defaultSettings]. *)
Theorem include_forks_default (chub : gmap string optval) (raw : obj) :
  (forall b, obj_get raw "include_forks" <> OBool b) ->
  obj_get (normalizeOptions chub raw) "include_forks" = OBool true
  /\ ~ In "include_forks" (map fst defaultSettings)
  /\ (forall flag, In flag booleanFlags -> flag <> "include_forks" ->
                   In flag (map fst defaultSettings)).
Proof.
  intros Hraw. repeat split.
  - rewrite normalizeOptions_include_forks. unfold boolean_or.
    destruct (obj_get raw "include_forks") eqn:E; try reflexivity.
    now destruct (Hraw b).
  - apply mem_not_In. reflexivity.
  - intros flag Hflag Hne. destruct (booleanFlags_cases flag Hflag) as [Hs|]; [|congruence].
    now apply settingsFlags_in_defaults.
Qed.

Lemma include_forks_default_witness :
  obj_get (normalizeOptions (<["include_forks" := OBool false]> (list_to_map defaultSettings))
             [("include_forks", OUndefined)]) "include_forks" = OBool true.
Proof.
  apply (include_forks_default
           (<["include_forks" := OBool false]> (list_to_map defaultSettings))
           [("include_forks", OUndefined)]).
  intros b. simpl. discriminate.
Defined.

(** * Claims about the query encoder *)

Lemma getAll_single (a v : string) : getAll a [(a, v)] = [v].
Proof. unfold getAll. simpl. now rewrite String.eqb_refl. Qed.

(** C6: a flag that holds a boolean in the options record is sent, once,
    with the literal [true] or [false]; a [false] is sent as well. *)
Theorem boolean_flag_always_emitted (o : obj) (flag : string) (b : bool) :
  wf_obj o ->
  In flag booleanFlags ->
  obj_get o flag = OBool b ->
  getAll flag (buildParams o) = [booleanLiteral b] /\ has flag (buildParams o) = true.
Proof.
  intros Hwf Hflag Hget.
  assert (Hfacts : paramMap flag = Some flag /\ mem flag numericApiKeys = false).
  { unfold booleanFlags, settingsFlags in Hflag. simpl in Hflag.
    repeat (destruct Hflag as [<-|Hflag]; [split; reflexivity|]). destruct Hflag. }
  destruct Hfacts as [Hpm Hnum].
  assert (E : getAll flag (buildParams o) = [booleanLiteral b]).
  { rewrite (getAll_buildParams flag flag o Hwf Hpm), Hget.
    unfold encodeEntry. rewrite Hpm. simpl meaningful. cbv iota.
    simpl isArray. rewrite andb_false_r, Hnum.
    rewrite getAll_single. now destruct b. }
  split; [exact E|].
  destruct (has flag (buildParams o)) eqn:Hhas; [reflexivity|].
  apply has_getAll in Hhas. rewrite Hhas in E. discriminate E.
Qed.

Lemma boolean_flag_always_emitted_witness :
  getAll "nsfw" (buildParams [("searchTerm", OStr "elf"); ("nsfw", OBool false)]) = ["false"].
Proof.
  apply (boolean_flag_always_emitted
           [("searchTerm", OStr "elf"); ("nsfw", OBool false)] "nsfw" false).
  - unfold wf_obj. simpl. apply NoDup_ListNoDup.
    repeat constructor; simpl; intuition discriminate.
  - unfold booleanFlags, settingsFlags. simpl. tauto.
  - reflexivity.
Defined.

(** C5: a tag-list option that holds an array is sent under its API key
    as the non-empty tags joined with commas and cut to 500 characters,
    and only when that string is not empty; an empty array and an array
    of empty tags send no key. *)
Theorem tag_list_encoding (o : obj) (optionKey apiKey : string) (tags : list string) :
  wf_obj o ->
  In (optionKey, apiKey) tagListOptions ->
  obj_get o optionKey = OTags tags ->
  let joined := Js.join "," (List.filter (fun tag => negb (String.eqb tag "")) tags) in
  let sent := Js.slice0 500 joined in
  (String.length sent <= 500)%nat
  /\ ((String.length joined <= 500)%nat -> sent = joined)
  /\ getAll apiKey (buildParams o) = (if String.eqb sent "" then [] else [sent])
  /\ (Forall (fun tag => tag = "") tags -> has apiKey (buildParams o) = false).
Proof.
  intros Hwf Hopt Hget joined sent.
  assert (Hsent : sent = tagsString tags).
  { unfold sent, joined, tagsString. do 2 f_equal. apply List.filter_ext.
    intros [|c r]; reflexivity. }
  assert (Hfacts : paramMap optionKey = Some apiKey /\ mem apiKey tagApiKeys = true).
  { simpl in Hopt. repeat (destruct Hopt as [[= <- <-]|Hopt]; [split; reflexivity|]).
    destruct Hopt. }
  destruct Hfacts as [Hpm Htag].
  assert (E : getAll apiKey (buildParams o) = (if String.eqb sent "" then [] else [sent])).
  { rewrite (getAll_buildParams apiKey optionKey o Hwf Hpm), Hget.
    unfold encodeEntry. rewrite Hpm, Htag. simpl. rewrite <- Hsent.
    destruct tags as [|t ts].
    - reflexivity.
    - simpl Nat.ltb. cbv iota. destruct (String.eqb sent ""); simpl; [reflexivity|].
      apply getAll_single. }
  split; [apply slice0_length|]. split; [apply slice0_short|]. split; [exact E|].
  intros Hall. apply has_getAll. rewrite E.
  assert (Hj : joined = "").
  { unfold joined. clear -Hall. induction Hall as [|t ts Ht _ IH]; [reflexivity|].
    subst t. simpl. exact IH. }
  unfold sent. rewrite Hj, slice0_empty. reflexivity.
Qed.

Lemma tag_list_encoding_witness :
  getAll "tags" (buildParams [("includeTags", OTags ["fantasy"; ""; "elf"]);
                              ("excludeTags", OTags [""; ""])])
  = ["fantasy,elf"]
  /\ has "exclude_tags" (buildParams [("includeTags", OTags ["fantasy"; ""; "elf"]);
                                      ("excludeTags", OTags [""; ""])]) = false.
Proof.
  assert (Hwf : wf_obj [("includeTags", OTags ["fantasy"; ""; "elf"]);
                        ("excludeTags", OTags [""; ""])]).
  { unfold wf_obj. simpl. apply NoDup_ListNoDup.
    repeat constructor; simpl; intuition discriminate. }
  split.
  - apply (tag_list_encoding _ "includeTags" "tags" ["fantasy"; ""; "elf"] Hwf).
    + simpl. tauto.
    + reflexivity.
  - apply (tag_list_encoding _ "excludeTags" "exclude_tags" [""; ""] Hwf).
    + simpl. tauto.
    + reflexivity.
    + repeat constructor.
Defined.

(** Where the strict parser accepts a string, [parseInt] reads the same
    integer. *)
Lemma strict_agrees (s : string) (n : Z) :
  Js.strictParseInt10 s = Js.Int n -> Js.parseInt10 s = Js.Int n.
Proof.
  unfold Js.strictParseInt10. intros H.
  destruct s as [|c r]; [discriminate H|].
  destruct (Ascii.eqb_spec c "-") as [->|Hc].
  - destruct (Js.startsWithDigit r) eqn:Hd; [|discriminate H].
    destruct (Js.allDigits r); [|discriminate H]. simpl in H.
    destruct (parseInt10_digits r Hd) as [_ ->]. injection H as <-. f_equal; lia.
  - assert (E : (match String c r with
                 | String "-"%char r0 => (-1, r0)
                 | _ => (1, String c r)
                 end) = (1, String c r)).
    { clear -Hc. destruct c as [[] [] [] [] [] [] [] []]; try reflexivity; congruence. }
    rewrite E in H. destruct (Js.startsWithDigit (String c r)) eqn:Hd; [|discriminate H].
    destruct (Js.allDigits (String c r)); [|discriminate H]. simpl andb in H. cbv iota in H.
    destruct (parseInt10_digits (String c r) Hd) as [-> _]. injection H as <-.
    f_equal. symmetry. apply Z.mul_1_l.
Qed.

(** C3, as the code has it: a numeric filter field is read with
    [parseInt(_, 10)], which skips leading white space, takes one sign
    and the longest prefix of decimal digits and ignores what follows.
    A missing input, an empty string and a string without such a digit
    prefix leave the key out of the encoded query; otherwise, when the
    integer read is a safe integer (of magnitude at most
    [Number.MAX_SAFE_INTEGER], where JavaScript's numbers are exact),
    the key is sent once with that integer, in decimal, which for a
    string a strict integer parser accepts is the integer it denotes. *)
Theorem numeric_filter_encoding (o : obj) (fld : string) (val : option string) :
  wf_obj o ->
  In fld numericFilterFields ->
  obj_get o fld = getInt val ->
  (forall s n, val = Some s -> Js.parseInt10 s = Js.Int n ->
               Z.abs n <= Js.MAX_SAFE_INTEGER ->
               getAll fld (buildParams o) = [Js.decimal n])
  /\ (forall s n, val = Some s -> Js.strictParseInt10 s = Js.Int n ->
                  Z.abs n <= Js.MAX_SAFE_INTEGER ->
                  getAll fld (buildParams o) = [Js.decimal n])
  /\ (val = None \/ val = Some "" \/ (exists s, val = Some s /\ Js.parseInt10 s = Js.NaN) ->
      has fld (buildParams o) = false).
Proof.
  intros Hwf Hfld Hget.
  assert (Hfacts : paramMap fld = Some fld /\ mem fld tagApiKeys = false
                   /\ mem fld numericApiKeys = true).
  { simpl in Hfld. repeat (destruct Hfld as [<-|Hfld]; [repeat split; reflexivity|]).
    destruct Hfld. }
  destruct Hfacts as (Hpm & Htag & Hnum).
  assert (E : getAll fld (buildParams o)
              = match val with
                | Some s => match Js.parseInt10 s with
                            | Js.Int n => [Js.decimal n]
                            | Js.NaN => []
                            end
                | None => []
                end).
  { rewrite (getAll_buildParams fld fld o Hwf Hpm), Hget.
    unfold encodeEntry. rewrite Hpm, Htag, Hnum. destruct val as [s|]; [|reflexivity].
    unfold getInt. destruct (String.eqb_spec s "") as [->|Hs]; [reflexivity|].
    simpl negb. cbv iota. simpl meaningful. cbv iota. simpl andb. cbv iota.
    simpl toString. destruct (Js.parseInt10 s) as [|n]; simpl Js.numberToString.
    - rewrite parseInt10_NaN_text. reflexivity.
    - rewrite parseInt10_decimal. apply getAll_single. }
  split; [|split].
  - intros s n -> Hp _. rewrite E, Hp. reflexivity.
  - intros s n -> Hp _. rewrite E, (strict_agrees s n Hp). reflexivity.
  - intros H. apply has_getAll. rewrite E.
    destruct H as [->|[->|(s & -> & Hp)]]; [reflexivity|reflexivity|].
    now rewrite Hp.
Qed.

Lemma numeric_filter_encoding_witness :
  getAll "min_tokens" (buildParams [("min_tokens", getInt (Some "42"));
                                    ("max_tokens", getInt (Some "abc"))]) = ["42"]
  /\ has "max_tokens" (buildParams [("min_tokens", getInt (Some "42"));
                                    ("max_tokens", getInt (Some "abc"))]) = false.
Proof.
  assert (Hwf : wf_obj [("min_tokens", getInt (Some "42"));
                        ("max_tokens", getInt (Some "abc"))]).
  { unfold wf_obj. simpl. apply NoDup_ListNoDup.
    repeat constructor; simpl; intuition discriminate. }
  split.
  - destruct (numeric_filter_encoding _ "min_tokens" (Some "42") Hwf) as (H & _ & _).
    + simpl. tauto.
    + reflexivity.
    + apply (H "42" 42); try reflexivity. vm_compute. discriminate.
  - destruct (numeric_filter_encoding _ "max_tokens" (Some "abc") Hwf) as (_ & _ & H).
    + simpl. tauto.
    + reflexivity.
    + apply H. right. right. exists "abc". split; reflexivity.
Defined.

(** C3 as stated fails: a strict base-10 integer parser rejects [4.7],
    [1e3] and [12abc], yet each of them puts the key in the encoded
    query, with the integer that its digit prefix denotes. *)
Lemma lenient_parse_is_sent :
  Js.strictParseInt10 "4.7" = Js.NaN /\
  getAll "min_tokens"
    (buildParams (normalizeOptions (list_to_map defaultSettings)
                    [("min_tokens", getInt (Some "4.7"))])) = ["4"] /\
  Js.strictParseInt10 "1e3" = Js.NaN /\
  getAll "max_days_ago"
    (buildParams (normalizeOptions (list_to_map defaultSettings)
                    [("max_days_ago", getInt (Some "1e3"))])) = ["1"] /\
  Js.strictParseInt10 "12abc" = Js.NaN /\
  getAll "min_tags" (buildParams [("min_tags", OStr "12abc")]) = ["12"].
Proof. repeat split; vm_compute; reflexivity. Qed.

(** * Result normaliser *)

Lemma append_empty_r (s : string) : s ++ "" = s.
Proof.
  induction s as [|c s IH]; [reflexivity|].
  change (String c (s ++ "") = String c s). now rewrite IH.
Qed.

Lemma append_char_assoc (s t : string) (c : ascii) :
  (s ++ String c "") ++ t = s ++ String c t.
Proof.
  induction s as [|d s IH]; [reflexivity|].
  change (String d ((s ++ String c "") ++ t) = String d (s ++ String c t)). now rewrite IH.
Qed.

Lemma prefix_char (c d : ascii) (r : string) :
  String.prefix (String c "") (String d r) = Ascii.eqb d c.
Proof.
  change (String.prefix (String c "") (String d r))
    with (if ascii_dec c d then String.prefix "" r else false).
  destruct (ascii_dec c d) as [->|Hne].
  - rewrite Ascii.eqb_refl. now destruct r.
  - symmetry. apply Ascii.eqb_neq. congruence.
Qed.

Lemma splitGo_slash_head (s cur : string) :
  exists rest, Js.splitGo "/" s 0 cur = (cur ++ upTo "/" s) :: rest.
Proof.
  revert cur. induction s as [|d r IH]; intros cur.
  - exists []. simpl. now rewrite append_empty_r.
  - cbn [Js.splitGo upTo]. rewrite prefix_char.
    destruct (Ascii.eqb d "/").
    + eexists. now rewrite append_empty_r.
    + destruct (IH (cur ++ String d "")) as [rest Hrest].
      exists rest. rewrite Hrest. now rewrite append_char_assoc.
Qed.

(** The first segment of [s.split('/')] is the part of [s] before its
    first slash. *)
Lemma split_slash_head (s : string) :
  exists rest, Js.split "/" s = upTo "/" s :: rest.
Proof. exact (splitGo_slash_head s ""). Qed.

Lemma upTo_prefix (c : ascii) (s : string) :
  s = upTo c s \/ exists rest, s = upTo c s ++ String c rest.
Proof.
  induction s as [|d r IH]; simpl; [now left|].
  destruct (Ascii.eqb_spec d c) as [->|Hne].
  - right. exists r. reflexivity.
  - destruct IH as [IH|[rest IH]].
    + left. now rewrite <- IH.
    + right. exists rest.
      change (String d r = String d (upTo c r ++ String c rest)). now rewrite <- IH.
Qed.

Lemma readProp_other_field (fields : list (string * value)) (k k' : string) (v : value) :
  k <> k' -> readProp (VObj ((k', v) :: fields)) k = readProp (VObj fields) k.
Proof.
  intros Hne. unfold readProp. simpl. destruct (String.eqb_spec k k'); [congruence | reflexivity].
Qed.

(** What [normalizeNode] computes, with the reads named. *)
Lemma normalizeNode_unfold (node : value) :
  node <> VNull -> node <> VUndefined ->
  normalizeNode node =
  let imageUrl := v_or (readProp node "avatar_url")
                       (v_or (readProp node "avatar") (VStr placeholder)) in
  match (if v_truthy imageUrl then
           match imageUrl with
           | VStr s => Returns (negb (Js.startsWith "http" s) && negb (Js.startsWith "blob:" s))
           | _ => Throws TypeError
           end
         else Returns false) with
  | Throws e => Throws e
  | Returns _ =>
      match (if v_truthy (readProp node "fullPath") then
               match readProp node "fullPath" with
               | VStr s => Returns (match Js.split "/" s with
                                    | a :: _ => VStr a
                                    | [] => VUndefined
                                    end)
               | _ => Throws TypeError
               end
             else Returns (VStr "Unknown Author")) with
      | Throws e => Throws e
      | Returns a =>
          Returns {| url := imageUrl;
                     description := v_or (readProp node "tagline") (VStr "No description.");
                     name := v_or (readProp node "name") (VStr "Unnamed Character");
                     fullPath := readProp node "fullPath";
                     tags := v_or (readProp node "topics") (VArr []);
                     author := a |}
      end
  end.
Proof. intros H1 H2. destruct node; try congruence; reflexivity. Qed.

Lemma normalizeNode_returns_inv (node : value) (r : CharacterRecord) :
  normalizeNode node = Returns r -> node <> VNull /\ node <> VUndefined.
Proof. destruct node; simpl; intros H; try discriminate H; split; discriminate. Qed.

(** C4: the record of a node has the name [Unnamed Character] when the
    node has none, the description [No description.] when the node has
    no tagline, as image URL the node's [avatar_url], else its [avatar],
    else the placeholder path, and as author the first segment of
    [fullPath] split at the slash, [Unknown Author] when the node has no
    [fullPath]; an [author] field of the node changes nothing.  A record
    is produced for every node that is an object whose [avatar_url],
    [avatar] and [fullPath] are strings where present. *)
Theorem node_normalisation (node : value) :
  (forall r, normalizeNode node = Returns r ->
     (readProp node "name" = VUndefined -> name r = VStr "Unnamed Character")
     /\ (readProp node "tagline" = VUndefined -> description r = VStr "No description.")
     /\ url r = v_or (readProp node "avatar_url")
                     (v_or (readProp node "avatar") (VStr placeholder))
     /\ (readProp node "avatar_url" = VUndefined -> readProp node "avatar" = VUndefined ->
         url r = VStr placeholder)
     /\ (readProp node "fullPath" = VUndefined -> author r = VStr "Unknown Author")
     /\ (forall s, readProp node "fullPath" = VStr s -> s <> "" ->
         exists rest, Js.split "/" s = upTo "/" s :: rest /\ author r = VStr (upTo "/" s)))
  /\ (forall fields v, node = VObj fields ->
        normalizeNode (VObj (("author", v) :: fields)) = normalizeNode node)
  /\ (forall fields, node = VObj fields ->
        textual (readProp node "avatar_url") -> textual (readProp node "avatar") ->
        textual (readProp node "fullPath") ->
        exists r, normalizeNode node = Returns r).
Proof.
  split; [|split].
  - intros r Hr. destruct (normalizeNode_returns_inv node r Hr) as [Hn Hu].
    rewrite (normalizeNode_unfold node Hn Hu) in Hr. cbv zeta in Hr.
    destruct (if v_truthy (v_or _ _) then _ else _) as [chk|]; [|discriminate Hr].
    destruct (if v_truthy (readProp node "fullPath") then _ else _) as [a|] eqn:Ha;
      [|discriminate Hr].
    injection Hr as <-. cbn [name description url author].
    repeat split.
    + intros ->. reflexivity.
    + intros ->. reflexivity.
    + intros -> ->. reflexivity.
    + intros E. rewrite E in Ha. simpl in Ha. congruence.
    + intros s E Hs. rewrite E in Ha.
      change (v_truthy (VStr s)) with (negb (String.eqb s "")) in Ha.
      destruct (String.eqb_spec s ""); [congruence|]. cbn [negb] in Ha.
      destruct (split_slash_head s) as [rest Hrest]. exists rest. split; [exact Hrest|].
      rewrite Hrest in Ha. congruence.
  - intros fields v ->.
    rewrite !normalizeNode_unfold by discriminate.
    rewrite !readProp_other_field by discriminate. reflexivity.
  - intros fields -> Hau Hav Hfp.
    rewrite normalizeNode_unfold by discriminate. cbv zeta.
    assert (Himg : exists chk,
               (if v_truthy (v_or (readProp (VObj fields) "avatar_url")
                                  (v_or (readProp (VObj fields) "avatar") (VStr placeholder)))
                then match v_or (readProp (VObj fields) "avatar_url")
                                (v_or (readProp (VObj fields) "avatar") (VStr placeholder)) with
                     | VStr s => Returns (negb (Js.startsWith "http" s)
                                          && negb (Js.startsWith "blob:" s))
                     | _ => Throws TypeError
                     end
                else Returns false) = Returns chk).
    { unfold v_or.
      destruct (v_truthy (readProp (VObj fields) "avatar_url")) eqn:E1.
      - destruct (Hau E1) as [s Hs]. rewrite Hs in *. rewrite E1. eauto.
      - destruct (v_truthy (readProp (VObj fields) "avatar")) eqn:E2.
        + destruct (Hav E2) as [s Hs]. rewrite Hs in *. rewrite E2. eauto.
        + simpl. eauto. }
    destruct Himg as [chk ->].
    destruct (v_truthy (readProp (VObj fields) "fullPath")) eqn:E3.
    + destruct (Hfp E3) as [s Hs]. rewrite Hs. eauto.
    + eauto.
Qed.

Lemma node_normalisation_witness :
  exists r, normalizeNode (VObj [("fullPath", VStr "alice/my-char"); ("name", VStr "X")])
            = Returns r
            /\ author r = VStr "alice" /\ description r = VStr "No description."
            /\ url r = VStr placeholder /\ name r = VStr "X".
Proof.
  destruct (node_normalisation (VObj [("fullPath", VStr "alice/my-char"); ("name", VStr "X")]))
    as (Hshape & _ & Htotal).
  destruct (Htotal _ eq_refl) as [r Hr]; try (intros H; discriminate H).
  { intros _. exists "alice/my-char". reflexivity. }
  exists r. split; [exact Hr|].
  destruct (Hshape r Hr) as (_ & Hd & _ & Hu & _ & Ha).
  split; [|split; [|split]].
  - destruct (Ha "alice/my-char" eq_refl) as (rest & _ & E); [discriminate | exact E].
  - apply Hd. reflexivity.
  - apply Hu; reflexivity.
  - vm_compute in Hr. injection Hr as <-. reflexivity.
Defined.

Lemma normalizeNode_fullPath (node : value) (r : CharacterRecord) :
  normalizeNode node = Returns r ->
  fullPath r = readProp node "fullPath"
  /\ (readProp node "fullPath" = VUndefined -> author r = VStr "Unknown Author").
Proof.
  intros Hr. destruct (normalizeNode_returns_inv node r Hr) as [Hn Hu].
  rewrite (normalizeNode_unfold node Hn Hu) in Hr. cbv zeta in Hr.
  destruct (if v_truthy (v_or _ _) then _ else _) as [chk|]; [|discriminate Hr].
  destruct (if v_truthy (readProp node "fullPath") then _ else _) as [a|] eqn:Ha;
    [|discriminate Hr].
  injection Hr as <-. cbn [fullPath author]. split; [reflexivity|].
  intros E. rewrite E in Ha. simpl in Ha. congruence.
Qed.

(** C9, as the code has it: the [fullPath] of a record is the node's
    [fullPath] as it came, so it is a non-empty string exactly when the
    node's is; a node without [fullPath] gives a record whose [fullPath]
    is [undefined] and whose author is [Unknown Author]. *)
Theorem fullPath_passthrough (items : list value) (records : list CharacterRecord) :
  mapNodes items = Returns records ->
  Forall2 (fun node r =>
             fullPath r = readProp node "fullPath"
             /\ (nonEmptyString (fullPath r) <-> nonEmptyString (readProp node "fullPath"))
             /\ (readProp node "fullPath" = VUndefined ->
                 fullPath r = VUndefined /\ author r = VStr "Unknown Author"))
          items records.
Proof.
  revert records. induction items as [|node rest IH]; intros records H; simpl in H.
  - injection H as <-. constructor.
  - destruct (normalizeNode node) as [r|] eqn:Hr; [|discriminate H].
    destruct (mapNodes rest) as [rs|]; [|discriminate H].
    injection H as <-. constructor; [|now apply IH].
    destruct (normalizeNode_fullPath node r Hr) as [Hfp Hau].
    split; [exact Hfp|]. split; [now rewrite Hfp|].
    intros E. split; [now rewrite Hfp | now apply Hau].
Qed.

Lemma fullPath_passthrough_witness :
  Forall2 (fun node r =>
             fullPath r = readProp node "fullPath"
             /\ (nonEmptyString (fullPath r) <-> nonEmptyString (readProp node "fullPath"))
             /\ (readProp node "fullPath" = VUndefined ->
                 fullPath r = VUndefined /\ author r = VStr "Unknown Author"))
          [VObj [("fullPath", VStr "alice/my-char")]; VObj [("name", VStr "X")]]
          [ {| url := VStr placeholder; description := VStr "No description.";
               name := VStr "Unnamed Character"; fullPath := VStr "alice/my-char";
               tags := VArr []; author := VStr "alice" |};
            {| url := VStr placeholder; description := VStr "No description.";
               name := VStr "X"; fullPath := VUndefined;
               tags := VArr []; author := VStr "Unknown Author" |} ].
Proof. apply fullPath_passthrough. vm_compute. reflexivity. Defined.

(** C9 as stated fails: a response whose one node carries no [fullPath]
    yields a record, and its [fullPath] is [undefined], not a non-empty
    string. *)
Lemma missing_fullPath_is_undefined :
  exists r,
    fst (fetchCharactersBySearch
           (fun _ => Resolves (jsonResponse 200 "OK"
                                 (Some (VObj [("nodes", VArr [VObj [("name", VStr "X")]])]))))
           [] emptyWorld) = Returns [r]
    /\ fullPath r = VUndefined
    /\ ~ nonEmptyString (fullPath r).
Proof.
  eexists. split; [vm_compute; reflexivity|]. split; [reflexivity|]. simpl. tauto.
Qed.

(** * Search orchestrator *)

(** Closes the conjunction of frame facts at a leaf of the case
    analysis of a computation. *)
Ltac frame_done :=
  repeat split; eauto; intros;
  try match goal with
      | H : _ \/ _ |- _ => destruct H; congruence
      end;
  repeat split; eauto;
  try (eexists; split; [|reflexivity]; reflexivity).

(** Every path of [fetchCharactersBySearch]: it returns, it sends one
    request, and it leaves the container, the settings and the ingestion
    log alone; when the remote call fails it returns the empty array and
    calls [toastr.error] once. *)
Lemma fetch_frame (net : Request -> fetched) (o : obj) (w : World) :
  let out := fetchCharactersBySearch net o w in
  characterListContainer (snd out) = characterListContainer w
  /\ chub (snd out) = chub w
  /\ requests (snd out) = (requests w ++ [searchRequestOf w o])%list
  /\ dropped (snd out) = dropped w
  /\ (exists characters, fst out = Returns characters)
  /\ (search_fails (net (searchRequestOf w o)) ->
      fst out = Returns []
      /\ chubCharacters (snd out) = chubCharacters w
      /\ exists t, toast_level t = Error /\ toasts (snd out) = (toasts w ++ [t])%list).
Proof.
  unfold fetchCharactersBySearch. fold (searchRequestOf w o).
  set (rq := searchRequestOf w o). unfold try_catch, bind, fetch, response_json.
  destruct (net rq) as [|r]; cbn.
  { frame_done. }
  destruct (ok r) eqn:Hok; cbn; destruct (json r) as [body|] eqn:Hjson; cbn.
  - destruct (findNodes body) as [nodes|]; cbn.
    + destruct (noNodes nodes); cbn.
      * frame_done.
      * destruct (nodes_map nodes); cbn; frame_done.
    + frame_done.
  - frame_done.
  - destruct (prop body "message") as [m|]; cbn; [|frame_done].
    destruct (v_truthy m); cbn; [|frame_done].
    unfold lift. destruct (v_toString m); cbn; frame_done.
  - frame_done.
Qed.

(** The parsed body leads to no nodes: nothing is reported. *)
Lemma fetch_no_nodes (net : Request -> fetched) (o : obj) (w : World)
      (r : Response) (body nodes : value) :
  net (searchRequestOf w o) = Resolves r -> ok r = true -> json r = Some body ->
  findNodes body = Returns nodes -> noNodes nodes = true ->
  let out := fetchCharactersBySearch net o w in
  fst out = Returns [] /\ toasts (snd out) = toasts w /\ chubCharacters (snd out) = [].
Proof.
  intros Hnet Hok Hjson Hfind Hno.
  unfold fetchCharactersBySearch. fold (searchRequestOf w o).
  unfold try_catch, bind, fetch, response_json. rewrite Hnet. cbn.
  rewrite Hok. cbn. rewrite Hjson. cbn. rewrite Hfind. cbn. rewrite Hno. cbn.
  repeat split.
Qed.

(** The lookup of the node list on a body that is not [null]. *)
Lemma findNodes_lookup (body : value) :
  body <> VNull -> body <> VUndefined ->
  findNodes body
  = Returns (if v_truthy (readProp body "nodes") then readProp body "nodes"
             else if v_truthy (readProp body "data")
                  then readProp (readProp body "data") "nodes"
                  else VNull).
Proof.
  intros Hn Hu. unfold findNodes, readProp.
  destruct (prop body "nodes") as [top|] eqn:Htop; [|destruct body; simpl in Htop; congruence].
  destruct (v_truthy top); [reflexivity|].
  destruct (prop body "data") as [data|] eqn:Hdata; [|destruct body; simpl in Hdata; congruence].
  destruct (v_truthy data) eqn:Ht; [|reflexivity].
  destruct data; simpl in Ht; try discriminate Ht; reflexivity.
Qed.

Lemma noNodes_absent_or_empty (nodes : value) :
  v_truthy nodes = false \/ nodes = VArr [] -> noNodes nodes = true.
Proof. intros [H| ->]; unfold noNodes; [now rewrite H | reflexivity]. Qed.

(** C7, as the code has it: for a parsed body other than [null], the
    node list is [body.nodes] when that is truthy, else
    [body.data.nodes] when [body.data] is truthy, else none; when the
    value found is falsy or is an empty list, the search returns the
    empty sequence and reports nothing. *)
Theorem no_nodes_is_silent (net : Request -> fetched) (o : obj) (w : World)
        (r : Response) (body : value) :
  net (searchRequestOf w o) = Resolves r -> ok r = true -> json r = Some body ->
  body <> VNull -> body <> VUndefined ->
  let nodes := if v_truthy (readProp body "nodes") then readProp body "nodes"
               else if v_truthy (readProp body "data")
                    then readProp (readProp body "data") "nodes"
                    else VNull in
  findNodes body = Returns nodes
  /\ (v_truthy nodes = false \/ nodes = VArr [] ->
      let out := fetchCharactersBySearch net o w in
      fst out = Returns [] /\ toasts (snd out) = toasts w /\ chubCharacters (snd out) = []).
Proof.
  intros Hnet Hok Hjson Hn Hu nodes.
  pose proof (findNodes_lookup body Hn Hu) as Hfind. fold nodes in Hfind.
  split; [exact Hfind|]. intros Hempty.
  apply (fetch_no_nodes net o w r body nodes); auto using noNodes_absent_or_empty.
Qed.

Lemma no_nodes_is_silent_witness :
  fst (fetchCharactersBySearch
         (fun _ => Resolves (jsonResponse 200 "OK" (Some (VObj [("nodes", VArr [])]))))
         [] emptyWorld) = Returns []
  /\ fst (fetchCharactersBySearch
            (fun _ => Resolves (jsonResponse 200 "OK" (Some (VObj []))))
            [] emptyWorld) = Returns [].
Proof.
  split.
  - destruct (no_nodes_is_silent
                (fun _ => Resolves (jsonResponse 200 "OK" (Some (VObj [("nodes", VArr [])]))))
                [] emptyWorld (jsonResponse 200 "OK" (Some (VObj [("nodes", VArr [])])))
                (VObj [("nodes", VArr [])]) eq_refl eq_refl eq_refl) as [_ H];
      try discriminate.
    apply H. right. reflexivity.
  - destruct (no_nodes_is_silent
                (fun _ => Resolves (jsonResponse 200 "OK" (Some (VObj []))))
                [] emptyWorld (jsonResponse 200 "OK" (Some (VObj [])))
                (VObj []) eq_refl eq_refl eq_refl) as [_ H];
      try discriminate.
    apply H. left. reflexivity.
Defined.

(** C7 as stated fails for the body [null]: it parses, no node list is
    found in it, and the search reports an error. *)
Lemma null_body_reports_error :
  ok (jsonResponse 200 "OK" (Some VNull)) = true
  /\ json (jsonResponse 200 "OK" (Some VNull)) = Some VNull
  /\ findNodes VNull = Throws TypeError
  /\ fst (fetchCharactersBySearch
            (fun _ => Resolves (jsonResponse 200 "OK" (Some VNull))) [] emptyWorld)
     = Returns []
  /\ toasts (snd (fetchCharactersBySearch
                    (fun _ => Resolves (jsonResponse 200 "OK" (Some VNull))) [] emptyWorld))
     = [fetchErrorToast].
Proof. repeat split; vm_compute; reflexivity. Qed.

Lemma classList_add_remove (c : string) (e : Element) :
  classList_remove c (classList_add c e) = classList_remove c e.
Proof.
  unfold classList_remove, classList_add. simpl. f_equal.
  destruct (mem c (classList e)); [reflexivity|].
  rewrite List.filter_app. simpl. rewrite String.eqb_refl. simpl. apply app_nil_r.
Qed.

Lemma classList_remove_absent (c : string) (e : Element) :
  ~ In c (classList (classList_remove c e)).
Proof.
  unfold classList_remove. simpl. intros H. apply List.filter_In in H.
  destruct H as [_ H]. rewrite String.eqb_refl in H. discriminate H.
Qed.

(** The part of [searchCharacters] from the call of
    [fetchCharactersBySearch] on. *)
Lemma search_tail (net : Request -> fetched) (o : obj) (w1 : World) :
  let out :=
    (characters <- fetchCharactersBySearch net o ;;
     (fun w =>
        match characterListContainer w with
        | Some e => set_characterListContainer (Some (classList_remove "searching" e)) w
        | None => ret tt w
        end) ;;;
     ret characters) w1 in
  (exists characters, fst out = Returns characters)
  /\ characterListContainer (snd out)
     = option_map (classList_remove "searching") (characterListContainer w1)
  /\ (search_fails (net (searchRequestOf w1 o)) ->
      fst out = Returns []
      /\ exists t, toast_level t = Error /\ toasts (snd out) = (toasts w1 ++ [t])%list).
Proof.
  cbv zeta. unfold bind.
  destruct (fetch_frame net o w1) as (Hcont & _ & _ & _ & [cs Hcs] & Hfail).
  destruct (fetchCharactersBySearch net o w1) as [res w2]. simpl in Hcont, Hcs, Hfail.
  subst res. rewrite Hcont.
  destruct (characterListContainer w1) as [e|]; cbn.
  - split; [eauto|]. split; [reflexivity|]. intros Hf.
    destruct (Hfail Hf) as (Hres & _ & t & Ht & Htoasts).
    split; [exact Hres|]. exists t. auto.
  - split; [eauto|]. split; [exact Hcont|]. intros Hf.
    destruct (Hfail Hf) as (Hres & _ & t & Ht & Htoasts).
    split; [exact Hres|]. exists t. auto.
Qed.

Lemma searchCharacters_marks (net : Request -> fetched) (o : obj) (w : World) :
  searchCharacters net o w
  = (characters <- fetchCharactersBySearch net o ;;
     (fun w =>
        match characterListContainer w with
        | Some e => set_characterListContainer (Some (classList_remove "searching" e)) w
        | None => ret tt w
        end) ;;;
     ret characters) (markSearching w).
Proof.
  unfold searchCharacters, markSearching, live_container. unfold bind at 1 2.
  destruct w as [c cs [e|] ts rs ds]; cbn.
  - destruct (inDocument e); reflexivity.
  - reflexivity.
Qed.

(** C2: a search never throws and, on every path, leaves the container
    that it marked as searching without that mark; when the remote call
    answers with a status outside 200 to 299, or [fetch] or the parse of
    the body throws, the search returns the empty sequence and the
    notifier gets exactly one error call. *)
Theorem search_failure_contained (net : Request -> fetched) (o : obj) (w : World) :
  let out := searchCharacters net o w in
  (exists characters, fst out = Returns characters)
  /\ characterListContainer (snd out)
     = option_map (classList_remove "searching") (live_container w)
  /\ (forall e, characterListContainer (snd out) = Some e -> ~ In "searching" (classList e))
  /\ (search_fails (net (searchRequestOf w o)) ->
      fst out = Returns []
      /\ exists t, toast_level t = Error /\ toasts (snd out) = (toasts w ++ [t])%list).
Proof.
  cbv zeta.
  assert (Hmain :
    (exists characters, fst (searchCharacters net o w) = Returns characters)
    /\ characterListContainer (snd (searchCharacters net o w))
       = option_map (classList_remove "searching") (live_container w)
    /\ (search_fails (net (searchRequestOf w o)) ->
        fst (searchCharacters net o w) = Returns []
        /\ exists t, toast_level t = Error
                     /\ toasts (snd (searchCharacters net o w)) = (toasts w ++ [t])%list)).
  { rewrite searchCharacters_marks.
    destruct (search_tail net o (markSearching w)) as (H1 & H2 & H3).
    split; [exact H1|]. split; [|exact H3].
    rewrite H2. cbn. destruct (live_container w); cbn; [|reflexivity].
    now rewrite classList_add_remove. }
  destruct Hmain as (H1 & H2 & H3).
  split; [exact H1|]. split; [exact H2|]. split; [|exact H3].
  intros e He. rewrite H2 in He. destruct (live_container w) as [e0|]; [|discriminate He].
  injection He as <-. apply classList_remove_absent.
Qed.

Lemma search_failure_contained_witness :
  fst (searchCharacters
         (fun _ => Resolves (jsonResponse 404 "Not Found"
                               (Some (VObj [("message", VStr "no such page")]))))
         [] emptyWorld) = Returns []
  /\ exists t, toast_level t = Error
               /\ toasts (snd (searchCharacters
                                 (fun _ => Resolves (jsonResponse 404 "Not Found"
                                              (Some (VObj [("message", VStr "no such page")]))))
                                 [] emptyWorld)) = ([] ++ [t])%list.
Proof.
  destruct (search_failure_contained
              (fun _ => Resolves (jsonResponse 404 "Not Found"
                                    (Some (VObj [("message", VStr "no such page")]))))
              [] emptyWorld) as (_ & _ & _ & H).
  apply H. left. reflexivity.
Defined.

(** * Download trigger *)

(** The paths of a download whose requests are answered: the primary
    import endpoint is asked first and, when its response is not a
    success, the legacy endpoint is asked with the same body; when that
    response is not a success either, one notification with the
    manual-fallback click action is issued and nothing is thrown.  On a
    success response whose body can be read and whose
    [Content-Disposition] header has a [filename=] part, the kind
    [character] hands the payload under the extracted file name to the
    ingestion collaborator, and every other kind, or none, gives the
    unknown-content-type warning and no ingestion. *)
Theorem download_dispatch (net : Request -> fetched) (input : string) (w : World)
        (first : Response) :
  net (importRequest primaryEndpoint (Js.trim input)) = Resolves first ->
  let url := Js.trim input in
  let primary := importRequest primaryEndpoint url in
  let legacy := importRequest legacyEndpoint url in
  let out := downloadCharacter net input w in
  req_body legacy = req_body primary
  /\ (ok first = true -> requests (snd out) = (requests w ++ [primary])%list)
  /\ (ok first = false -> requests (snd out) = (requests w ++ [primary; legacy])%list)
  /\ (forall second,
        ok first = false -> net legacy = Resolves second -> ok second = false ->
        fst out = Returns tt
        /\ toasts (snd out) = (toasts w ++ [importFailedToast url])%list
        /\ dropped (snd out) = dropped w)
  /\ (forall response data fileName,
        (ok first = true /\ response = first)
        \/ (ok first = false /\ net legacy = Resolves response /\ ok response = true) ->
        blob response = Some data ->
        fileNameOf response = Returns fileName ->
        fst out = Returns tt
        /\ (headers_get response "X-Custom-Content-Type" = Some "character" ->
            dropped (snd out)
            = (dropped w ++ [[ {| file_bits := [data]; file_name := fileName;
                                  file_type := blob_type data |} ]])%list
            /\ toasts (snd out) = toasts w)
        /\ (headers_get response "X-Custom-Content-Type" <> Some "character" ->
            toasts (snd out) = (toasts w ++ [unknownTypeToast])%list
            /\ dropped (snd out) = dropped w)).
Proof.
  intros Hnet url primary legacy out.
  assert (Hsuccess : forall response data fileName w1,
            ok response = true -> blob response = Some data ->
            fileNameOf response = Returns fileName ->
            let tail :=
              (data <- response_blob response ;;
               fileName <- lift (fileNameOf response) ;;
               match headers_get response "X-Custom-Content-Type" with
               | Some kind =>
                   if String.eqb kind "character"
                   then processDroppedFiles
                          [ {| file_bits := [data]; file_name := fileName;
                               file_type := blob_type data |} ]
                   else toastr_warning "Unknown content type"
               | None => toastr_warning "Unknown content type"
               end) w1 in
            fst tail = Returns tt
            /\ (headers_get response "X-Custom-Content-Type" = Some "character" ->
                dropped (snd tail)
                = (dropped w1 ++ [[ {| file_bits := [data]; file_name := fileName;
                                       file_type := blob_type data |} ]])%list
                /\ toasts (snd tail) = toasts w1)
            /\ (headers_get response "X-Custom-Content-Type" <> Some "character" ->
                toasts (snd tail) = (toasts w1 ++ [unknownTypeToast])%list
                /\ dropped (snd tail) = dropped w1)).
  { intros response data fileName w1 Hok Hblob Hname. cbv zeta.
    unfold bind, response_blob, lift. rewrite Hblob, Hname. cbn.
    destruct (headers_get response "X-Custom-Content-Type") as [kind|]; cbn.
    - destruct (String.eqb_spec kind "character") as [->|Hne]; cbn.
      + repeat split; congruence.
      + repeat split; congruence.
    - repeat split; congruence. }
  split; [reflexivity|].
  change (net primary = Resolves first) in Hnet.
  unfold out, downloadCharacter. fold url. fold primary. fold legacy.
  cbv zeta in Hsuccess. unfold bind, response_blob, lift in Hsuccess.
  unfold bind, fetch, response_blob, lift. rewrite Hnet.
  destruct (ok first) eqn:Hok1; cbn -[fileNameOf headers_get String.eqb ok].
  - rewrite Hok1. cbn -[fileNameOf headers_get String.eqb ok].
    split; [intros _|split; [discriminate|split; [discriminate|]]].
    + destruct (blob first); [|reflexivity].
      destruct (fileNameOf first); [|reflexivity].
      destruct (headers_get first "X-Custom-Content-Type") as [kind|];
        [destruct (String.eqb kind "character")|]; reflexivity.
    + intros response data fileName [[_ ->]|[H _]]; [|discriminate H].
      intros Hblob Hname.
      exact (Hsuccess first data fileName _ Hok1 Hblob Hname).
  - split; [discriminate|].
    destruct (net legacy) as [|second] eqn:Hnet2.
    + split; [intros _; cbn; now rewrite <- app_assoc|]. split; [discriminate|].
      intros response data fileName [[H _]|(_ & H & _)]; discriminate H.
    + cbn -[fileNameOf headers_get String.eqb ok].
      destruct (ok second) eqn:Hok2; cbn -[fileNameOf headers_get String.eqb ok].
      * split; [intros _|split].
        -- destruct (blob second); [|cbn; now rewrite <- app_assoc].
           destruct (fileNameOf second); [|cbn; now rewrite <- app_assoc].
           destruct (headers_get second "X-Custom-Content-Type") as [kind|];
             [destruct (String.eqb kind "character")|]; cbn; now rewrite <- app_assoc.
        -- intros second' _ [= <-] H. congruence.
        -- intros response data fileName [[H _]|(_ & [= <-] & _)]; [discriminate H|].
           intros Hblob Hname.
           exact (Hsuccess second data fileName _ Hok2 Hblob Hname).
      * split; [intros _; now rewrite <- app_assoc|]. split.
        -- intros second' _ _ _. repeat split.
        -- intros response data fileName [[H _]|(_ & [= <-] & H)]; [discriminate H|].
           congruence.
Qed.

Lemma download_dispatch_witness :
  dropped (snd (downloadCharacter legacyOnly " alice/my-char " emptyWorld))
  = [[ {| file_bits := [ {| blob_bytes := "PNG"; blob_type := "image/png" |} ];
          file_name := "my-char.png"; file_type := "image/png" |} ]]
  /\ map req_url (requests (snd (downloadCharacter legacyOnly " alice/my-char " emptyWorld)))
     = [primaryEndpoint; legacyEndpoint].
Proof.
  destruct (download_dispatch legacyOnly " alice/my-char " emptyWorld
              (jsonResponse 404 "Not Found" None) eq_refl)
    as (_ & _ & Hreq & _ & Hok).
  split.
  - destruct (Hok (cardResponse "character" "attachment; filename=my-char.png")
                  {| blob_bytes := "PNG"; blob_type := "image/png" |} "my-char.png")
      as (_ & H & _).
    + right. repeat split.
    + reflexivity.
    + reflexivity.
    + destruct (H eq_refl) as [Hd _]. exact Hd.
  - rewrite (Hreq eq_refl). reflexivity.
Defined.

(** C8: a rejected request leaves [downloadCharacter] as an exception,
    where the claim has a notification and nothing raised.  With the
    network down the call throws after the primary request: the legacy
    endpoint is not asked and nothing is notified.  It throws as well,
    with nothing notified, when the primary endpoint answers 404 and the
    legacy request is rejected, and when the body of a success response
    cannot be read.  The search, on the same network, catches the
    rejection: it returns the empty sequence and reports one error. *)
Lemma download_failure_escapes :
  fst (downloadCharacter offline "alice/my-char" emptyWorld) = Throws NetworkError
  /\ map req_url (requests (snd (downloadCharacter offline "alice/my-char" emptyWorld)))
     = [primaryEndpoint]
  /\ toasts (snd (downloadCharacter offline "alice/my-char" emptyWorld)) = []
  /\ dropped (snd (downloadCharacter offline "alice/my-char" emptyWorld)) = []
  /\ fst (downloadCharacter legacyUnreachable "alice/my-char" emptyWorld)
     = Throws NetworkError
  /\ map req_url
       (requests (snd (downloadCharacter legacyUnreachable "alice/my-char" emptyWorld)))
     = [primaryEndpoint; legacyEndpoint]
  /\ toasts (snd (downloadCharacter legacyUnreachable "alice/my-char" emptyWorld)) = []
  /\ fst (downloadCharacter (fun _ => Resolves unreadableCard) "alice/my-char" emptyWorld)
     = Throws NetworkError
  /\ toasts (snd (downloadCharacter (fun _ => Resolves unreadableCard)
                    "alice/my-char" emptyWorld)) = []
  /\ fst (fetchCharactersBySearch offline [] emptyWorld) = Returns []
  /\ toasts (snd (fetchCharactersBySearch offline [] emptyWorld)) = [fetchErrorToast].
Proof. repeat split; vm_compute; reflexivity. Qed.

(** Outside the response contract of the import endpoints: a success
    response that names the kind [character] but carries no
    [Content-Disposition] header makes the call throw, and nothing is
    handed to the ingestion collaborator; with another kind the call
    throws as well and no warning is reported. *)
Lemma download_without_disposition_throws :
  ok (bareResponse "character") = true
  /\ headers_get (bareResponse "character") "X-Custom-Content-Type" = Some "character"
  /\ fst (downloadCharacter (fun _ => Resolves (bareResponse "character"))
            "alice/my-char" emptyWorld) = Throws TypeError
  /\ dropped (snd (downloadCharacter (fun _ => Resolves (bareResponse "character"))
                     "alice/my-char" emptyWorld)) = []
  /\ fst (downloadCharacter (fun _ => Resolves (bareResponse "lorebook"))
            "alice/my-char" emptyWorld) = Throws TypeError
  /\ toasts (snd (downloadCharacter (fun _ => Resolves (bareResponse "lorebook"))
                    "alice/my-char" emptyWorld)) = [].
Proof. repeat split; vm_compute; reflexivity. Qed.

(** When [fetch] itself rejects, the rejection leaves
    [downloadCharacter]. *)
Lemma download_rejection_propagates (input : string) (w : World) :
  fst (downloadCharacter (fun _ => Rejects) input w) = Throws NetworkError.
Proof. reflexivity. Qed.

(** * Search form *)

Example splitAndTrim_ex : splitAndTrim (Some "a, b ,,c") = ["a"; "b"; "c"].
Proof. reflexivity. Qed.

Example checkboxIdOf_ex :
  checkboxIdOf "require_example_dialogues" = "requireExampleDialoguesCheckbox"
  /\ checkboxIdOf "require_alternate_greetings" = "requireAlternateGreetingsCheckbox".
Proof. split; reflexivity. Qed.

Example handleSearch_ex :
  map (fun o => (obj_get o "page", obj_get o "includeTags", obj_get o "first"))
      (pg_scheduled (handleSearch (clickOn "pageUpButton") samplePage))
  = [(ONum (Js.Int 4), OTags ["a"; "b"; "c"], ONum (Js.Int 10))].
Proof. vm_compute. reflexivity. Qed.

Lemma allChars_app (P : ascii -> bool) (s t : string) :
  allChars P (s ++ t) = allChars P s && allChars P t.
Proof.
  induction s as [|c s IH]; [reflexivity|].
  change (P c && allChars P (s ++ t) = P c && allChars P s && allChars P t).
  rewrite IH. now rewrite andb_assoc.
Qed.

Lemma trimStart_head (s : string) : headNotSpace (Js.trimStart s).
Proof.
  induction s as [|c r IH]; simpl; [exact I|].
  destruct (Js.isWhiteSpace c) eqn:E; [exact IH | exact E].
Qed.

Lemma trimStart_fixed (s : string) : headNotSpace s -> Js.trimStart s = s.
Proof. destruct s as [|c r]; simpl; [reflexivity|]. now intros ->. Qed.

Lemma trimEnd_head (s : string) : headNotSpace s -> headNotSpace (Js.trimEnd s).
Proof.
  destruct s as [|c r]; simpl; [exact id|]. intros E.
  destruct (Js.trimEnd r); [rewrite E|]; exact E.
Qed.

Lemma trimEnd_idem (s : string) : Js.trimEnd (Js.trimEnd s) = Js.trimEnd s.
Proof.
  induction s as [|c r IH]; [reflexivity|]. simpl.
  destruct (Js.trimEnd r) as [|d r'] eqn:E.
  - destruct (Js.isWhiteSpace c) eqn:Ews; [reflexivity|]. simpl. now rewrite Ews.
  - simpl. simpl in IH. now rewrite IH.
Qed.

Lemma trim_idem (s : string) : Js.trim (Js.trim s) = Js.trim s.
Proof.
  unfold Js.trim.
  rewrite (trimStart_fixed (Js.trimEnd (Js.trimStart s))).
  - apply trimEnd_idem.
  - apply trimEnd_head, trimStart_head.
Qed.

Lemma trimStart_chars (P : ascii -> bool) (s : string) :
  allChars P s = true -> allChars P (Js.trimStart s) = true.
Proof.
  induction s as [|c r IH]; simpl; [auto|]. intros H.
  apply andb_prop in H. destruct H as [Hc Hr].
  destruct (Js.isWhiteSpace c); [auto|]. simpl. now rewrite Hc, Hr.
Qed.

Lemma trimEnd_chars (P : ascii -> bool) (s : string) :
  allChars P s = true -> allChars P (Js.trimEnd s) = true.
Proof.
  induction s as [|c r IH]; simpl; [auto|]. intros H.
  apply andb_prop in H. destruct H as [Hc Hr]. specialize (IH Hr).
  destruct (Js.trimEnd r) as [|d r'].
  - destruct (Js.isWhiteSpace c); simpl; [reflexivity | now rewrite Hc].
  - change (P c && allChars P (String d r') = true). now rewrite Hc, IH.
Qed.

Lemma prefix_comma (d : ascii) (r : string) :
  String.prefix "," (String d r) = Ascii.eqb d ",".
Proof. apply prefix_char. Qed.

Lemma splitGo_comma_free (s cur : string) :
  allChars notComma cur = true ->
  Forall (fun seg => allChars notComma seg = true) (Js.splitGo "," s 0 cur).
Proof.
  revert cur. induction s as [|d r IH]; intros cur Hcur.
  - simpl. constructor; [exact Hcur | constructor].
  - cbn [Js.splitGo]. rewrite prefix_comma.
    destruct (Ascii.eqb d ",") eqn:E.
    + constructor; [exact Hcur|]. apply IH. reflexivity.
    + apply IH. rewrite allChars_app, Hcur. simpl. unfold notComma. now rewrite E.
Qed.

Lemma splitAndTrim_cleanTags (val : option string) :
  Forall cleanTag (splitAndTrim val).
Proof.
  destruct val as [str|]; [|constructor]. unfold splitAndTrim.
  destruct (String.eqb str ""); [constructor|].
  apply List.Forall_forall. intros tag Hin. apply List.filter_In in Hin.
  destruct Hin as [Hin Hne]. apply in_map_iff in Hin. destruct Hin as (seg & <- & Hseg).
  assert (Hfree : allChars notComma seg = true).
  { pose proof (splitGo_comma_free str "" eq_refl) as H.
    rewrite List.Forall_forall in H. apply H. exact Hseg. }
  split; [|split].
  - intros E. rewrite E in Hne. discriminate Hne.
  - unfold Js.trim. now apply trimEnd_chars, trimStart_chars.
  - apply trim_idem.
Qed.

(** What [splitAndTrim] returns: the empty list for a missing and for
    an empty field, and in every case tags that are not empty, hold no
    comma and have no white space at either end. *)
Theorem splitAndTrim_clean :
  splitAndTrim None = []
  /\ splitAndTrim (Some "") = []
  /\ forall val : option string, Forall cleanTag (splitAndTrim val).
Proof. split; [reflexivity|]. split; [reflexivity|]. apply splitAndTrim_cleanTags. Qed.

Lemma splitGo_last (t cur : string) :
  allChars notComma t = true -> Js.splitGo "," t 0 cur = [cur ++ t].
Proof.
  revert cur. induction t as [|d r IH]; intros cur H.
  - simpl. now rewrite append_empty_r.
  - simpl in H. apply andb_prop in H. destruct H as [Hd Hr].
    cbn [Js.splitGo]. rewrite prefix_comma. unfold notComma in Hd.
    destruct (Ascii.eqb d ","); [discriminate Hd|].
    rewrite IH by exact Hr. now rewrite append_char_assoc.
Qed.

Lemma splitGo_segment (t rest cur : string) :
  allChars notComma t = true ->
  Js.splitGo "," (t ++ String "," rest) 0 cur = (cur ++ t) :: Js.splitGo "," rest 0 "".
Proof.
  revert cur. induction t as [|d r IH]; intros cur H.
  - change ("" ++ String "," rest) with (String "," rest).
    cbn [Js.splitGo]. rewrite prefix_comma. cbn. now rewrite append_empty_r.
  - simpl in H. apply andb_prop in H. destruct H as [Hd Hr].
    change (String d r ++ String "," rest) with (String d (r ++ String "," rest)).
    cbn [Js.splitGo]. rewrite prefix_comma. unfold notComma in Hd.
    destruct (Ascii.eqb d ","); [discriminate Hd|].
    rewrite IH by exact Hr. now rewrite append_char_assoc.
Qed.

Lemma split_join_comma (tags : list string) :
  tags <> [] ->
  Forall (fun tag => allChars notComma tag = true) tags ->
  Js.split "," (Js.join "," tags) = tags.
Proof.
  intros Hne Hall. change (Js.splitGo "," (Js.join "," tags) 0 "" = tags).
  induction Hall as [|x l Hx Hl IH]; [congruence|].
  destruct l as [|y l'].
  - simpl. now rewrite splitGo_last.
  - change (Js.join "," (x :: y :: l')) with (x ++ String "," (Js.join "," (y :: l'))).
    rewrite splitGo_segment by exact Hx. f_equal. apply IH. discriminate.
Qed.

Lemma join_nonempty (sep : string) (tags : list string) :
  tags <> [] -> Forall (fun tag => tag <> "") tags -> Js.join sep tags <> "".
Proof.
  intros Hne Hall. destruct Hall as [|x l Hx _]; [congruence|].
  destruct x as [|c r]; [congruence|]. destruct l; discriminate.
Qed.

(** Round trip of the tag field: a list of clean tags, joined with
    commas and read back by [splitAndTrim], is the same list. *)
Theorem splitAndTrim_join (tags : list string) :
  Forall cleanTag tags -> splitAndTrim (Some (Js.join "," tags)) = tags.
Proof.
  intros Hclean. destruct tags as [|x l] eqn:Etags; [reflexivity|]. rewrite <- Etags in *.
  assert (Hne : tags <> []) by (rewrite Etags; discriminate).
  unfold splitAndTrim.
  destruct (String.eqb_spec (Js.join "," tags) "") as [E|_].
  { exfalso. apply (join_nonempty "," tags Hne); [|exact E].
    eapply List.Forall_impl; [|exact Hclean]. intros t (H & _). exact H. }
  rewrite split_join_comma;
    [|exact Hne|eapply List.Forall_impl; [|exact Hclean]; intros t (_ & H & _); exact H].
  clear Hne Etags x l. induction Hclean as [|t ts (Ht & _ & Htrim) _ IH]; [reflexivity|].
  simpl. rewrite Htrim. destruct (String.eqb_spec t ""); [congruence|]. simpl.
  now rewrite IH.
Qed.

Lemma splitAndTrim_join_witness :
  splitAndTrim (Some (Js.join "," ["fantasy"; "dark elf"])) = ["fantasy"; "dark elf"].
Proof.
  apply splitAndTrim_join. repeat constructor; try discriminate.
Defined.

Lemma slice0_nonempty (n : nat) (s : string) :
  s <> "" -> Js.slice0 (S n) s <> "".
Proof. destruct s; [congruence | discriminate]. Qed.

Lemma filter_nonempty_clean (tags : list string) :
  Forall cleanTag tags ->
  List.filter (fun tag => Nat.ltb 0 (String.length tag)) tags = tags.
Proof.
  induction 1 as [|t ts (Ht & _) _ IH]; [reflexivity|].
  simpl. destruct t; [congruence|]. simpl. now rewrite IH.
Qed.

(** The tags typed in the include and exclude fields are sent as they
    come out of [splitAndTrim], joined with commas and cut to 500
    characters; the key is there exactly when a tag is left. *)
Theorem typed_tags_are_sent (o : obj) (optionKey apiKey : string) (val : option string) :
  wf_obj o ->
  In (optionKey, apiKey) [("includeTags", "tags"); ("excludeTags", "exclude_tags")] ->
  obj_get o optionKey = OTags (splitAndTrim val) ->
  getAll apiKey (buildParams o)
  = match splitAndTrim val with
    | [] => []
    | tags => [Js.slice0 500 (Js.join "," tags)]
    end.
Proof.
  intros Hwf Hopt Hget.
  assert (Hfacts : paramMap optionKey = Some apiKey /\ mem apiKey tagApiKeys = true).
  { simpl in Hopt. repeat (destruct Hopt as [[= <- <-]|Hopt]; [split; reflexivity|]).
    destruct Hopt. }
  destruct Hfacts as [Hpm Htag].
  rewrite (getAll_buildParams apiKey optionKey o Hwf Hpm), Hget.
  pose proof (splitAndTrim_cleanTags val) as Hclean.
  unfold encodeEntry. rewrite Hpm, Htag. simpl meaningful. simpl isArray. cbv iota.
  simpl andb. cbv iota. unfold tagsString. rewrite (filter_nonempty_clean _ Hclean).
  destruct (splitAndTrim val) as [|t ts] eqn:E; [reflexivity|].
  simpl Nat.ltb. cbv iota.
  assert (Hj : Js.join "," (t :: ts) <> "").
  { apply join_nonempty; [discriminate|].
    eapply List.Forall_impl; [|exact Hclean]. intros x (H & _). exact H. }
  destruct (String.eqb_spec (Js.slice0 500 (Js.join "," (t :: ts))) "") as [E0|_].
  - exfalso. exact (slice0_nonempty 499 _ Hj E0).
  - simpl negb. cbv iota. apply getAll_single.
Qed.

Lemma typed_tags_are_sent_witness :
  getAll "tags" (buildParams (gatherOptions (pg_form samplePage) (Js.Int 1)))
  = ["a,b,c"].
Proof.
  apply (typed_tags_are_sent _ "includeTags" "tags" (Some "a, b ,,c")).
  - unfold wf_obj. apply (bool_decide_unpack _). vm_compute. reflexivity.
  - simpl. tauto.
  - reflexivity.
Defined.

(** [clamp] brings a number into the range: within it the number is
    kept, below it the lower bound is returned, above it the upper one. *)
Theorem clamp_range (v lo hi : Z) :
  lo <= hi ->
  exists r, clamp (Js.Int v) (Js.Int lo) (Js.Int hi) = Js.Int r
            /\ lo <= r <= hi
            /\ (lo <= v <= hi -> r = v)
            /\ (v < lo -> r = lo)
            /\ (hi < v -> r = hi).
Proof.
  intros H. exists (Z.min (Z.max v lo) hi). split; [reflexivity|]. lia.
Qed.

Lemma clamp_range_witness :
  exists r, clamp (Js.Int (-5)) (Js.Int 1) (Js.Int Js.MAX_SAFE_INTEGER) = Js.Int r
            /\ 1 <= r <= Js.MAX_SAFE_INTEGER.
Proof.
  destruct (clamp_range (-5) 1 Js.MAX_SAFE_INTEGER) as (r & H1 & H2 & _).
  - vm_compute. discriminate.
  - exists r. split; assumption.
Defined.

Lemma pageNumberOr1_int (val : option string) :
  exists n, pageNumberOr1 val = Js.Int n.
Proof.
  unfold pageNumberOr1, getInt. destruct val as [s|]; [|now exists 1].
  destruct (negb (String.eqb s "")); [|now exists 1].
  destruct (Js.parseInt10 s) as [|n]; [now exists 1|].
  unfold js_or. simpl. destruct (Z.eqb n 0); simpl; eauto.
Qed.

Lemma decimal_nonempty (n : Z) : Js.decimal n <> "".
Proof.
  intros E. pose proof (parseInt10_decimal n) as H. rewrite E in H. discriminate H.
Qed.

(** A number written into a field reads back through [getInt]. *)
Lemma getInt_decimal (n : Z) : getInt (Some (Js.decimal n)) = ONum (Js.Int n).
Proof.
  unfold getInt. destruct (String.eqb_spec (Js.decimal n) "") as [E|_].
  - now destruct (decimal_nonempty n).
  - simpl. now rewrite parseInt10_decimal.
Qed.

Lemma setValue_same (id v : string) (form : gmap string Control) :
  getVal (setValue id v form) id
  = match form !! id with Some _ => Some v | None => None end.
Proof.
  unfold getVal, setValue. destruct (form !! id) eqn:E.
  - now rewrite lookup_insert_eq.
  - now rewrite E.
Qed.

Lemma setValue_other (id id' v : string) (form : gmap string Control) :
  id <> id' -> setValue id v form !! id' = form !! id'.
Proof.
  intros Hne. unfold setValue. destruct (form !! id); [|reflexivity].
  now rewrite lookup_insert_ne.
Qed.

Lemma setValue_dom (id id' v : string) (form : gmap string Control) :
  is_Some (setValue id v form !! id') <-> is_Some (form !! id').
Proof.
  destruct (String.eqb_spec id id') as [<-|Hne].
  - unfold setValue. destruct (form !! id) eqn:E.
    + rewrite lookup_insert_eq. split; eauto.
    + rewrite E. reflexivity.
  - now rewrite setValue_other.
Qed.

Lemma gatherOptions_wf (form : gmap string Control) (currentPage : Js.number) :
  wf_obj (gatherOptions form currentPage).
Proof. unfold wf_obj. apply (bool_decide_unpack _). vm_compute. reflexivity. Qed.

Lemma normalizeOptions_page (chub : gmap string optval) (o : obj) :
  obj_get (normalizeOptions chub o) "page" = js_or (obj_get o "page") (ONum (Js.Int 1)).
Proof.
  unfold normalizeOptions.
  rewrite !obj_get_set_ne by discriminate. rewrite obj_get_set_eq.
  rewrite !obj_get_set_ne by discriminate.
  rewrite fold_fromSettings_get. change (mem "page" settingsFlags) with false.
  cbv iota. rewrite obj_get_set_ne by discriminate. reflexivity.
Qed.

Lemma handleSearch_unfold (e : Event) (p : Page) :
  ignoredEvent e = false ->
  handleSearch e p =
  let currentPage := pageNumberOr1 (getVal (pg_form p) "pageNumber") in
  let currentPage :=
    if onPageUp e then js_incr currentPage
    else if onPageDown e then js_decr currentPage
    else currentPage in
  let currentPage := clamp currentPage (Js.Int 1) (Js.Int Js.MAX_SAFE_INTEGER) in
  let form := setValue "pageNumber" (Js.numberToString currentPage) (pg_form p) in
  let options := gatherOptions form currentPage in
  let reset := negb (paginationTrigger e) in
  let options := if reset then obj_set "page" (ONum (Js.Int 1)) options else options in
  let form := if reset then setValue "pageNumber" "1" form else form in
  let scheduled := (pg_scheduled p ++ [options])%list in
  let chub :=
    if (match form !! "resultsPerPage" with Some _ => true | None => false end)
       && truthy (obj_get options "first")
    then <["findCount" := obj_get options "first"]> (pg_chub p)
    else pg_chub p in
  {| pg_form := form; pg_chub := syncFlags form chub; pg_scheduled := scheduled |}.
Proof.
  unfold ignoredEvent, handleSearch. intros H. apply orb_false_elim in H.
  destruct H as [-> ->]. reflexivity.
Qed.

(** The page of a search: a key other than Enter in a text or number
    field changes nothing; every other trigger schedules one search,
    whose page lies between 1 and [Number.MAX_SAFE_INTEGER] and is 1
    unless a pagination control triggered it.  That page is what the
    page field then shows, and what the query built from the scheduled
    options carries. *)
Theorem handleSearch_page (e : Event) (p : Page) :
  (ignoredEvent e = true -> handleSearch e p = p)
  /\ (ignoredEvent e = false ->
      exists o n,
        pg_scheduled (handleSearch e p) = (pg_scheduled p ++ [o])%list
        /\ wf_obj o
        /\ obj_get o "page" = ONum (Js.Int n)
        /\ 1 <= n <= Js.MAX_SAFE_INTEGER
        /\ (paginationTrigger e = false -> n = 1)
        /\ (is_Some (pg_form p !! "pageNumber") ->
            getInt (getVal (pg_form (handleSearch e p)) "pageNumber") = ONum (Js.Int n))
        /\ (forall chub,
              getAll "page" (buildParams (normalizeOptions chub o)) = [Js.decimal n])).
Proof.
  split.
  { unfold ignoredEvent, handleSearch. intros H.
    destruct (String.eqb (ev_type e) "keyup" && otherKeyInField e); [reflexivity|].
    simpl in H. now rewrite H. }
  intros Hig. rewrite (handleSearch_unfold e p Hig). cbv zeta.
  destruct (pageNumberOr1_int (getVal (pg_form p) "pageNumber")) as [n0 ->].
  set (n1 := if onPageUp e then n0 + 1 else if onPageDown e then n0 - 1 else n0).
  assert (E1 : (if onPageUp e then js_incr (Js.Int n0)
                else if onPageDown e then js_decr (Js.Int n0) else Js.Int n0) = Js.Int n1).
  { unfold n1. destruct (onPageUp e); [reflexivity|]. now destruct (onPageDown e). }
  rewrite E1. clear E1.
  set (n2 := Z.min (Z.max n1 1) Js.MAX_SAFE_INTEGER).
  change (clamp (Js.Int n1) (Js.Int 1) (Js.Int Js.MAX_SAFE_INTEGER)) with (Js.Int n2).
  assert (Hn2 : 1 <= n2 <= Js.MAX_SAFE_INTEGER).
  { unfold n2. assert (1 <= Js.MAX_SAFE_INTEGER) by (vm_compute; discriminate). lia. }
  cbn [pg_scheduled pg_form].
  set (form1 := setValue "pageNumber" (Js.numberToString (Js.Int n2)) (pg_form p)).
  assert (Hsent : forall (o : obj) (n : Z) (chub : gmap string optval),
             wf_obj o -> obj_get o "page" = ONum (Js.Int n) -> 1 <= n ->
             getAll "page" (buildParams (normalizeOptions chub o)) = [Js.decimal n]).
  { intros o n chub Hwf Hget Hn.
    rewrite (getAll_buildParams "page" "page" _ (normalizeOptions_wf chub o Hwf) eq_refl).
    rewrite normalizeOptions_page, Hget. unfold js_or. simpl truthy.
    destruct (Z.eqb_spec n 0); [lia|]. simpl negb. cbv iota.
    apply getAll_single. }
  destruct (paginationTrigger e) eqn:Hpag; cbn [negb].
  - exists (gatherOptions form1 (Js.Int n2)), n2.
    split; [reflexivity|]. split; [apply gatherOptions_wf|]. split; [reflexivity|].
    split; [exact Hn2|]. split; [discriminate|]. split.
    + intros [c Hc]. unfold form1. rewrite setValue_same, Hc. apply getInt_decimal.
    + intros chub. apply Hsent; [apply gatherOptions_wf | reflexivity | lia].
  - exists (obj_set "page" (ONum (Js.Int 1)) (gatherOptions form1 (Js.Int n2))), 1.
    split; [reflexivity|]. split; [apply wf_obj_set, gatherOptions_wf|].
    split; [apply obj_get_set_eq|].
    split; [split; [lia | vm_compute; discriminate]|]. split; [reflexivity|]. split.
    + intros Hc. rewrite setValue_same.
      assert (H1 : is_Some (form1 !! "pageNumber")) by (apply setValue_dom; exact Hc).
      destruct H1 as [c1 ->]. reflexivity.
    + intros chub. apply Hsent; [apply wf_obj_set, gatherOptions_wf|apply obj_get_set_eq|lia].
Qed.

Lemma handleSearch_page_witness :
  exists o, pg_scheduled (handleSearch (clickOn "pageDownButton") samplePage) = [o]
            /\ obj_get o "page" = ONum (Js.Int 2)
            /\ getVal (pg_form (handleSearch (clickOn "pageDownButton") samplePage))
                      "pageNumber" = Some "2".
Proof.
  destruct (handleSearch_page (clickOn "pageDownButton") samplePage) as [_ H].
  destruct (H eq_refl) as (o & n & Hs & _ & Hp & _).
  exists o. split; [exact Hs|]. split; [|reflexivity].
  vm_compute in Hs. injection Hs as <-. reflexivity.
Defined.

Lemma syncFlags_fold (form : gmap string Control) (l : obj) (m : gmap string optval)
      (k : string) :
  wf_obj l ->
  fold_left
    (fun (m : gmap string optval) '(key, value) =>
       match value with
       | OBool _ =>
           if String.eqb key "findCount" then m
           else
             match form !! checkboxIdOf key with
             | Some checkbox => <[key := OBool (ctl_checked checkbox)]> m
             | None => m
             end
       | _ => m
       end) l m !! k
  = match obj_get l k with
    | OBool _ =>
        if String.eqb k "findCount" then m !! k
        else
          match form !! checkboxIdOf k with
          | Some checkbox => Some (OBool (ctl_checked checkbox))
          | None => m !! k
          end
    | _ => m !! k
    end.
Proof.
  unfold wf_obj. revert m. induction l as [|[k0 v0] r IH]; intros m Hnd; [reflexivity|].
  simpl in Hnd. apply NoDup_ListNoDup in Hnd. inversion Hnd as [|? ? Hnotin Hnd']; subst.
  apply NoDup_ListNoDup in Hnd'. simpl fold_left. rewrite (IH _ Hnd'). simpl obj_get.
  destruct (String.eqb_spec k k0) as [->|Hne].
  - rewrite (obj_get_absent r k0 Hnotin).
    destruct v0; try reflexivity.
    destruct (String.eqb k0 "findCount"); [reflexivity|].
    destruct (form !! checkboxIdOf k0); [|reflexivity]. apply lookup_insert_eq.
  - assert (Hm : forall m' : gmap string optval,
               match v0 with
               | OBool _ =>
                   if String.eqb k0 "findCount" then m'
                   else match form !! checkboxIdOf k0 with
                        | Some checkbox => <[k0 := OBool (ctl_checked checkbox)]> m'
                        | None => m'
                        end
               | _ => m'
               end !! k = m' !! k).
    { intros m'. destruct v0; try reflexivity.
      destruct (String.eqb k0 "findCount"); [reflexivity|].
      destruct (form !! checkboxIdOf k0); [|reflexivity].
      apply lookup_insert_ne. congruence. }
    rewrite Hm. reflexivity.
Qed.

Lemma defaultSettings_wf : wf_obj defaultSettings.
Proof. unfold wf_obj. apply (bool_decide_unpack _). vm_compute. reflexivity. Qed.

(** What the closing loop of [handleSearch] leaves in the store under a
    key. *)
Lemma syncFlags_lookup (form : gmap string Control) (chub : gmap string optval) (k : string) :
  syncFlags form chub !! k
  = match obj_get defaultSettings k with
    | OBool _ =>
        match form !! checkboxIdOf k with
        | Some checkbox => Some (OBool (ctl_checked checkbox))
        | None => chub !! k
        end
    | _ => chub !! k
    end.
Proof.
  unfold syncFlags. rewrite (syncFlags_fold form defaultSettings chub k defaultSettings_wf).
  destruct (obj_get defaultSettings k) eqn:E; try reflexivity.
  destruct (String.eqb_spec k "findCount") as [->|_]; [discriminate E | reflexivity].
Qed.

Lemma settingsFlag_default (key : string) :
  In key settingsFlags -> obj_get defaultSettings key = OBool false /\ key <> "findCount".
Proof.
  intros H. simpl in H.
  repeat (destruct H as [<-|H]; [split; [reflexivity | discriminate]|]). destruct H.
Qed.

(** For every settings-backed flag but [require_alternate_greetings],
    the checkbox whose state is sent and the checkbox whose state is
    stored are the same element. *)
Lemma checkbox_of_flag (form : gmap string Control) (currentPage : Js.number) (key : string) :
  In key settingsFlags -> key <> "require_alternate_greetings" ->
  obj_get (gatherOptions form currentPage) key = getChecked form (checkboxIdOf key)
  /\ checkboxIdOf key <> "pageNumber".
Proof.
  intros H Hne. simpl in H.
  repeat (destruct H as [<-|H];
          [first [congruence | split; [reflexivity | discriminate]]|]).
  destruct H.
Qed.

(** A trigger that is not ignored stores, for every settings-backed flag
    but [require_alternate_greetings], the state of the checkbox that
    was sent for it; the setting is kept when the document has no such
    checkbox. *)
Theorem handleSearch_stores_flags (e : Event) (p : Page) (key : string) :
  ignoredEvent e = false ->
  In key settingsFlags ->
  key <> "require_alternate_greetings" ->
  exists o,
    pg_scheduled (handleSearch e p) = (pg_scheduled p ++ [o])%list
    /\ match obj_get o key with
       | OBool b => pg_chub (handleSearch e p) !! key = Some (OBool b)
       | _ => pg_chub (handleSearch e p) !! key = pg_chub p !! key
       end.
Proof.
  intros Hig Hkey Hne. rewrite (handleSearch_unfold e p Hig). cbv zeta.
  cbn [pg_scheduled pg_chub]. eexists. split; [reflexivity|].
  destruct (settingsFlag_default key Hkey) as [Hdef Hfc].
  set (cp := clamp _ _ _).
  set (form1 := setValue "pageNumber" (Js.numberToString cp) (pg_form p)).
  destruct (checkbox_of_flag form1 cp key Hkey Hne) as [Hsame Hid].
  assert (Hopt : obj_get (if negb (paginationTrigger e)
                          then obj_set "page" (ONum (Js.Int 1)) (gatherOptions form1 cp)
                          else gatherOptions form1 cp) key
                 = getChecked form1 (checkboxIdOf key)).
  { destruct (negb (paginationTrigger e)); [|exact Hsame].
    rewrite obj_get_set_ne; [exact Hsame|].
    intros <-. apply mem_In in Hkey. discriminate Hkey. }
  rewrite Hopt. rewrite syncFlags_lookup, Hdef.
  assert (Hform : (if negb (paginationTrigger e) then setValue "pageNumber" "1" form1
                   else form1) !! checkboxIdOf key = form1 !! checkboxIdOf key).
  { destruct (negb (paginationTrigger e)); [|reflexivity].
    apply setValue_other. congruence. }
  rewrite Hform. unfold getChecked.
  destruct (form1 !! checkboxIdOf key); [reflexivity|].
  match goal with
  | |- (if ?c then _ else _) !! _ = _ => destruct c
  end; [|reflexivity].
  apply lookup_insert_ne. congruence.
Qed.

Lemma handleSearch_stores_flags_witness :
  pg_chub (handleSearch (clickOn "characterSearchButton") samplePage) !! "nsfw"
  = Some (OBool true).
Proof.
  destruct (handleSearch_stores_flags (clickOn "characterSearchButton") samplePage "nsfw")
    as (o & Hs & Hk).
  - reflexivity.
  - simpl. tauto.
  - discriminate.
  - vm_compute in Hs. injection Hs as <-. exact Hk.
Defined.

Lemma popupIds_no_alternate : ~ In (checkboxIdOf "require_alternate_greetings") popupIds.
Proof. apply mem_not_In. vm_compute. reflexivity. Qed.

(** The setting [require_alternate_greetings] is never stored: the loop
    looks for an element [requireAlternateGreetingsCheckbox], and the
    popup calls its checkbox [requireAltGreetingsCheckbox].  In a
    document whose controls are those of the popup, [handleSearch]
    leaves the setting as it was, while the flag it sends follows the
    checkbox. *)
Theorem handleSearch_never_stores_alternate_greetings (e : Event) (p : Page) :
  (forall id, is_Some (pg_form p !! id) -> In id popupIds) ->
  pg_chub (handleSearch e p) !! "require_alternate_greetings"
  = pg_chub p !! "require_alternate_greetings"
  /\ (ignoredEvent e = false ->
      exists o,
        pg_scheduled (handleSearch e p) = (pg_scheduled p ++ [o])%list
        /\ obj_get o "require_alternate_greetings"
           = getChecked (pg_form p) "requireAltGreetingsCheckbox").
Proof.
  intros Hdom. destruct (ignoredEvent e) eqn:Hig.
  { split; [|discriminate].
    unfold ignoredEvent, handleSearch in *.
    destruct (String.eqb (ev_type e) "keyup" && otherKeyInField e); [reflexivity|].
    simpl in Hig. now rewrite Hig. }
  rewrite (handleSearch_unfold e p Hig). cbv zeta. cbn [pg_scheduled pg_chub].
  set (cp := clamp _ _ _).
  set (form1 := setValue "pageNumber" (Js.numberToString cp) (pg_form p)).
  set (form2 := if negb (paginationTrigger e) then setValue "pageNumber" "1" form1 else form1).
  assert (Hnone : form2 !! checkboxIdOf "require_alternate_greetings" = None).
  { destruct (form2 !! checkboxIdOf "require_alternate_greetings") eqn:E; [|reflexivity].
    exfalso. apply popupIds_no_alternate, Hdom.
    assert (H2 : is_Some (form2 !! checkboxIdOf "require_alternate_greetings")) by eauto.
    unfold form2 in H2. destruct (negb (paginationTrigger e)).
    - apply setValue_dom in H2. unfold form1 in H2. now apply setValue_dom in H2.
    - unfold form1 in H2. now apply setValue_dom in H2. }
  split.
  - rewrite syncFlags_lookup. change (obj_get defaultSettings "require_alternate_greetings")
      with (OBool false). cbv iota. rewrite Hnone.
    match goal with
    | |- (if ?c then _ else _) !! _ = _ => destruct c
    end; [|reflexivity].
    apply lookup_insert_ne. discriminate.
  - intros _. eexists. split; [reflexivity|].
    assert (Hopt : obj_get (gatherOptions form1 cp) "require_alternate_greetings"
                   = getChecked (pg_form p) "requireAltGreetingsCheckbox").
    { change (obj_get (gatherOptions form1 cp) "require_alternate_greetings")
        with (getChecked form1 "requireAltGreetingsCheckbox").
      unfold getChecked, form1. rewrite setValue_other by discriminate. reflexivity. }
    destruct (negb (paginationTrigger e)); [|exact Hopt].
    rewrite obj_get_set_ne by discriminate. exact Hopt.
Qed.

Lemma samplePage_controls (id : string) :
  is_Some (pg_form samplePage !! id) -> In id popupIds.
Proof.
  intros [c Hc]. unfold samplePage in Hc. cbn [pg_form] in Hc.
  apply elem_of_list_to_map_2 in Hc. apply list_elem_of_In in Hc. simpl in Hc.
  repeat (destruct Hc as [[= <- _]|Hc]; [apply mem_In; reflexivity|]). destruct Hc.
Qed.

Lemma handleSearch_never_stores_alternate_greetings_witness :
  pg_chub (handleSearch (clickOn "requireAltGreetingsCheckbox") samplePage)
    !! "require_alternate_greetings" = Some (OBool false)
  /\ exists o,
       pg_scheduled (handleSearch (clickOn "requireAltGreetingsCheckbox") samplePage) = [o]
       /\ obj_get o "require_alternate_greetings" = OBool true.
Proof.
  destruct (handleSearch_never_stores_alternate_greetings
              (clickOn "requireAltGreetingsCheckbox") samplePage samplePage_controls)
    as [H1 H2].
  split.
  - rewrite H1. vm_compute. reflexivity.
  - destruct (H2 eq_refl) as (o & Hs & Ho). exists o. split; [exact Hs|].
    rewrite Ho. vm_compute. reflexivity.
Defined.

(** * More on the query encoder *)

Lemma encodeEntry_meaningful (k : string) (v : optval) (p : string * string) :
  In p (encodeEntry k v) -> meaningful v = true.
Proof.
  unfold encodeEntry. destruct (paramMap k); [|intros []].
  destruct (meaningful v); [reflexivity | intros []].
Qed.

Lemma encodeEntry_short (k : string) (v : optval) :
  encodeEntry k v = [] \/ exists p, encodeEntry k v = [p].
Proof.
  unfold encodeEntry. destruct (paramMap k) as [a|]; [|now left].
  destruct (meaningful v); [|now left].
  destruct (mem a tagApiKeys && isArray v).
  - destruct v; try (now left). destruct (Nat.ltb 0 (length tags0)); [|now left].
    destruct (negb _); [right; eauto | now left].
  - destruct (mem a numericApiKeys).
    + destruct (Js.parseInt10 _); [now left | right; eauto].
    + right; eauto.
Qed.

Lemma buildParams_origin (o : obj) (p : string * string) :
  In p (buildParams o) -> exists k x, In (k, x) o /\ In p (encodeEntry k x).
Proof.
  induction o as [|[k x] r IH]; [intros []|].
  rewrite buildParams_cons. intros H. apply in_app_or in H. destruct H as [H|H].
  - exists k, x. split; [now left | exact H].
  - destruct (IH H) as (k' & x' & Hin & Hp). exists k', x'. split; [now right | exact Hp].
Qed.

(** For options whose names are not inherited from [Object.prototype], a
    pair of the encoded query comes from an option that is a key of
    [paramMap] and whose value is neither [null] nor [undefined] nor
    the empty string: such values, and options that the table does not
    list, are never sent. *)
Theorem buildParams_sends_meaningful (o : obj) (a v : string) :
  plainNames o ->
  In (a, v) (buildParams o) ->
  exists k x, In (k, x) o /\ paramMap k = Some a /\ meaningful x = true
              /\ x <> ONull /\ x <> OUndefined /\ x <> OStr "".
Proof.
  intros _ H. destruct (buildParams_origin o (a, v) H) as (k & x & Hin & Hp).
  exists k, x. split; [exact Hin|]. split; [exact (encodeEntry_key k x (a, v) Hp)|].
  pose proof (encodeEntry_meaningful k x (a, v) Hp) as Hm.
  split; [exact Hm|]. repeat split; intros ->; discriminate Hm.
Qed.

Lemma buildParams_sends_meaningful_witness :
  exists k x, In (k, x) [("searchTerm", OStr ""); ("name_like", OStr "elf"); ("junk", OBool true)]
              /\ paramMap k = Some "name_like" /\ meaningful x = true
              /\ x <> ONull /\ x <> OUndefined /\ x <> OStr "".
Proof.
  apply (buildParams_sends_meaningful _ "name_like" "elf").
  - repeat constructor.
  - vm_compute. tauto.
Defined.

(** A key appears at most once in the encoded query of an object. *)
Theorem buildParams_keys_unique (o : obj) :
  wf_obj o -> NoDup (map fst (buildParams o)).
Proof.
  unfold wf_obj. induction o as [|[k x] r IH]; intros Hnd; [constructor|].
  simpl in Hnd. apply NoDup_ListNoDup in Hnd. inversion Hnd as [|? ? Hnotin Hnd']; subst.
  apply NoDup_ListNoDup in Hnd'. specialize (IH Hnd').
  rewrite buildParams_cons, map_app.
  destruct (encodeEntry_short k x) as [->|[p Hp]]; [exact IH|].
  rewrite Hp. simpl. apply NoDup_ListNoDup. constructor; [|now apply NoDup_ListNoDup].
  intros Hin. apply in_map_iff in Hin. destruct Hin as ([a v] & Ha & Hin). simpl in Ha.
  destruct (buildParams_origin r (a, v) Hin) as (k' & x' & Hin' & Hp').
  apply encodeEntry_key in Hp'. simpl in Hp'.
  assert (Hk : paramMap k = Some (fst p)).
  { apply (encodeEntry_key k x p). rewrite Hp. now left. }
  rewrite <- Ha in Hk. rewrite (paramMap_inj k k' a Hk Hp') in Hnotin.
  apply Hnotin. apply (in_map fst) in Hin'. exact Hin'.
Qed.

Lemma buildParams_keys_unique_witness :
  NoDup (map fst (buildParams (normalizeOptions (list_to_map defaultSettings)
                                 [("searchTerm", OStr "elf")]))).
Proof.
  apply buildParams_keys_unique, normalizeOptions_wf.
  unfold wf_obj. simpl. apply NoDup_ListNoDup. repeat constructor. simpl. tauto.
Defined.

Lemma encodeUnit_chars (c : ascii) :
  allChars queryChar (UrlEncoded.encodeUnit c) = true.
Proof. destruct c as [[] [] [] [] [] [] [] []]; vm_compute; reflexivity. Qed.

Lemma encode_chars (s : string) : allChars queryChar (UrlEncoded.encode s) = true.
Proof.
  induction s as [|c r IH]; [reflexivity|]. simpl.
  now rewrite allChars_app, encodeUnit_chars, IH.
Qed.

Lemma join_chars (P : ascii -> bool) (sep : string) (l : list string) :
  allChars P sep = true -> Forall (fun s => allChars P s = true) l ->
  allChars P (Js.join sep l) = true.
Proof.
  intros Hsep Hall. induction Hall as [|x l Hx Hl IH]; [reflexivity|].
  destruct l as [|y l']; [exact Hx|].
  change (Js.join sep (x :: y :: l')) with (x ++ sep ++ Js.join sep (y :: l')).
  now rewrite !allChars_app, Hx, Hsep, IH.
Qed.

(** The query string is made of letters, digits, [* - . _], the percent
    and plus signs of encoded characters and the separators [&] and [=]:
    no space, quote, comma or other character of an option reaches the
    URL as it is. *)
Theorem buildQueryString_chars (o : obj) :
  allChars queryChar (buildQueryString o) = true.
Proof.
  unfold buildQueryString, UrlEncoded.serialize. apply join_chars; [reflexivity|].
  apply List.Forall_forall. intros s Hs. apply in_map_iff in Hs.
  destruct Hs as ([k v] & <- & _).
  rewrite !allChars_app, !encode_chars. reflexivity.
Qed.

(** * More on option normalisation *)

Lemma obj_set_noop (k : string) (v : optval) (o : obj) :
  In k (map fst o) -> v = obj_get o k -> obj_set k v o = o.
Proof.
  intros Hin ->. induction o as [|[k' v'] r IH]; [destruct Hin|]. simpl.
  destruct (String.eqb_spec k k') as [->|Hne]; [reflexivity|].
  f_equal. apply IH. destruct Hin as [E|H]; [simpl in E; congruence | exact H].
Qed.

Lemma obj_set_has_key (k : string) (v : optval) (o : obj) :
  In k (map fst (obj_set k v o)).
Proof.
  rewrite obj_set_keys. destruct (mem k (map fst o)) eqn:E.
  - now apply mem_In.
  - apply in_or_app. right. now left.
Qed.

Lemma obj_set_keeps_key (k k' : string) (v : optval) (o : obj) :
  In k' (map fst o) -> In k' (map fst (obj_set k v o)).
Proof.
  intros H. rewrite obj_set_keys. destruct (mem k (map fst o)); [exact H|].
  apply in_or_app. now left.
Qed.

Lemma fold_fromSettings_keys (chub : gmap string optval) (flags : list string) (o : obj)
      (k : string) :
  In k flags \/ In k (map fst o) ->
  In k (map fst (fold_left (fromSettings chub) flags o)).
Proof.
  revert o. induction flags as [|a l IH]; intros o H.
  - destruct H as [[]|H]. exact H.
  - simpl. apply IH. destruct H as [[->|H]|H].
    + right. apply obj_set_has_key.
    + now left.
    + right. now apply obj_set_keeps_key.
Qed.

Lemma normalizeOptions_keys (chub : gmap string optval) (o : obj) (k : string) :
  In k ("first" :: "sort" :: "page" :: "asc" :: booleanFlags) ->
  In k (map fst (normalizeOptions chub o)).
Proof.
  intros H. unfold normalizeOptions.
  destruct H as [<-|[<-|[<-|[<-|H]]]].
  - do 4 apply obj_set_keeps_key. apply fold_fromSettings_keys. right. apply obj_set_has_key.
  - do 3 apply obj_set_keeps_key. apply obj_set_has_key.
  - do 2 apply obj_set_keeps_key. apply obj_set_has_key.
  - apply obj_set_keeps_key. apply obj_set_has_key.
  - destruct (booleanFlags_cases k H) as [Hs| ->].
    + do 4 apply obj_set_keeps_key. apply fold_fromSettings_keys. now left.
    + apply obj_set_has_key.
Qed.

Lemma normalizeOptions_first (chub : gmap string optval) (o : obj) :
  obj_get (normalizeOptions chub o) "first"
  = js_or (obj_get o "first") (js_or (setting chub "findCount") (ONum (Js.Int 30))).
Proof.
  unfold normalizeOptions. rewrite !obj_get_set_ne by discriminate.
  rewrite fold_fromSettings_get. change (mem "first" settingsFlags) with false.
  cbv iota. apply obj_get_set_eq.
Qed.

Lemma normalizeOptions_sort (chub : gmap string optval) (o : obj) :
  obj_get (normalizeOptions chub o) "sort"
  = js_or (obj_get o "sort") (OStr "download_count").
Proof.
  unfold normalizeOptions. rewrite !obj_get_set_ne by discriminate.
  rewrite obj_get_set_eq.
  rewrite fold_fromSettings_get. change (mem "sort" settingsFlags) with false.
  cbv iota. rewrite obj_get_set_ne by discriminate. reflexivity.
Qed.

Lemma normalizeOptions_asc (chub : gmap string optval) (o : obj) :
  obj_get (normalizeOptions chub o) "asc" = boolean_or (obj_get o "asc") (OBool false).
Proof.
  unfold normalizeOptions. rewrite !obj_get_set_ne by discriminate.
  rewrite obj_get_set_eq. rewrite !obj_get_set_ne by discriminate.
  rewrite fold_fromSettings_get. change (mem "asc" settingsFlags) with false.
  cbv iota. rewrite obj_get_set_ne by discriminate. reflexivity.
Qed.

Lemma js_or_truthy (a b : optval) : truthy b = true -> truthy (js_or a b) = true.
Proof. intros H. unfold js_or. destruct (truthy a) eqn:E; assumption. Qed.

Lemma js_or_idem (a b : optval) : truthy b = true -> js_or (js_or a b) b = js_or a b.
Proof.
  intros H. unfold js_or at 1. now rewrite (js_or_truthy a b H).
Qed.

Lemma js_or_kept (a b : optval) : truthy a = true -> js_or a b = a.
Proof. intros H. unfold js_or. now rewrite H. Qed.

Lemma fold_fromSettings_fixed (chub : gmap string optval) (flags : list string) (o : obj) :
  (forall k, In k flags ->
     In k (map fst o) /\ boolean_or (obj_get o k) (setting chub k) = obj_get o k) ->
  fold_left (fromSettings chub) flags o = o.
Proof.
  induction flags as [|a l IH]; intros H; [reflexivity|]. simpl.
  destruct (H a (or_introl eq_refl)) as [Hin Hv].
  unfold fromSettings at 2. rewrite (obj_set_noop a _ o Hin Hv).
  apply IH. intros k Hk. apply H. now right.
Qed.

(** Normalising options that are already normalised changes nothing,
    not even the order of the keys. *)
Theorem normalizeOptions_idempotent (chub : gmap string optval) (o : obj) :
  normalizeOptions chub (normalizeOptions chub o) = normalizeOptions chub o.
Proof.
  set (o' := normalizeOptions chub o).
  assert (Hkeys : forall k, In k ("first" :: "sort" :: "page" :: "asc" :: booleanFlags) ->
                            In k (map fst o'))
    by (intros k; apply normalizeOptions_keys).
  unfold normalizeOptions at 1.
  assert (S1 : obj_set "first"
                 (js_or (obj_get o' "first")
                        (js_or (setting chub "findCount") (ONum (Js.Int 30)))) o' = o').
  { apply obj_set_noop; [apply Hkeys; simpl; tauto|].
    apply js_or_kept. unfold o'. rewrite normalizeOptions_first.
    apply js_or_truthy, js_or_truthy. reflexivity. }
  rewrite S1.
  assert (S2 : fold_left (fromSettings chub) settingsFlags o' = o').
  { apply fold_fromSettings_fixed. intros k Hk. split.
    - apply Hkeys. do 4 right. unfold booleanFlags. apply in_or_app. now left.
    - unfold o'. rewrite (normalizeOptions_settingsFlag chub o k Hk).
      apply boolean_or_idem. }
  rewrite S2.
  assert (S3 : obj_set "sort" (js_or (obj_get o' "sort") (OStr "download_count")) o' = o').
  { apply obj_set_noop; [apply Hkeys; simpl; tauto|].
    apply js_or_kept. unfold o'. rewrite normalizeOptions_sort.
    apply js_or_truthy. reflexivity. }
  rewrite S3.
  assert (S4 : obj_set "page" (js_or (obj_get o' "page") (ONum (Js.Int 1))) o' = o').
  { apply obj_set_noop; [apply Hkeys; simpl; tauto|].
    apply js_or_kept. unfold o'. rewrite normalizeOptions_page.
    apply js_or_truthy. reflexivity. }
  rewrite S4.
  assert (S5 : obj_set "asc" (boolean_or (obj_get o' "asc") (OBool false)) o' = o').
  { apply obj_set_noop; [apply Hkeys; simpl; tauto|].
    unfold o'. rewrite normalizeOptions_asc. apply boolean_or_idem. }
  rewrite S5.
  apply obj_set_noop.
  - apply Hkeys. do 4 right. unfold booleanFlags. apply in_or_app. right. now left.
  - unfold o'. rewrite normalizeOptions_include_forks. apply boolean_or_idem.
Qed.

Lemma truthy_meaningful (v : optval) : truthy v = true -> meaningful v = true.
Proof. destruct v; simpl; try discriminate; auto. Qed.

Lemma encodeEntry_plain (k : string) (v : optval) :
  paramMap k = Some k -> mem k tagApiKeys = false -> mem k numericApiKeys = false ->
  meaningful v = true ->
  getAll k (encodeEntry k v) = [toString v].
Proof.
  intros Hpm Htag Hnum Hm. unfold encodeEntry. rewrite Hpm, Hm, Htag, Hnum.
  simpl andb. cbv iota. apply getAll_single.
Qed.

(** Every query carries [first], [sort], [page], [asc] and
    [include_forks], each once: the value of the raw options when it is
    usable, and otherwise the stored [findCount] or 30,
    [download_count], 1, [false] and [true].  The values of [first],
    [sort] and [page] and the stored [findCount] are taken within the
    safe integers where they are numbers: those are the numbers that
    JavaScript prints in decimal digits. *)
Theorem query_always_has_paging (chub : gmap string optval) (raw : obj) :
  wf_obj raw ->
  safeValue (obj_get raw "first") -> safeValue (setting chub "findCount") ->
  safeValue (obj_get raw "sort") -> safeValue (obj_get raw "page") ->
  let query := buildParams (normalizeOptions chub raw) in
  getAll "first" query
  = [toString (js_or (obj_get raw "first")
                     (js_or (setting chub "findCount") (ONum (Js.Int 30))))]
  /\ getAll "sort" query = [toString (js_or (obj_get raw "sort") (OStr "download_count"))]
  /\ getAll "page" query = [toString (js_or (obj_get raw "page") (ONum (Js.Int 1)))]
  /\ getAll "asc" query = [toString (boolean_or (obj_get raw "asc") (OBool false))]
  /\ getAll "include_forks" query
     = [toString (boolean_or (obj_get raw "include_forks") (OBool true))].
Proof.
  intros Hwf _ _ _ _ query. pose proof (normalizeOptions_wf chub raw Hwf) as Hwf'.
  unfold query. repeat split.
  - rewrite (getAll_buildParams "first" "first" _ Hwf' eq_refl), normalizeOptions_first.
    apply encodeEntry_plain; try reflexivity.
    apply truthy_meaningful, js_or_truthy, js_or_truthy. reflexivity.
  - rewrite (getAll_buildParams "sort" "sort" _ Hwf' eq_refl), normalizeOptions_sort.
    apply encodeEntry_plain; try reflexivity.
    apply truthy_meaningful, js_or_truthy. reflexivity.
  - rewrite (getAll_buildParams "page" "page" _ Hwf' eq_refl), normalizeOptions_page.
    apply encodeEntry_plain; try reflexivity.
    apply truthy_meaningful, js_or_truthy. reflexivity.
  - rewrite (getAll_buildParams "asc" "asc" _ Hwf' eq_refl), normalizeOptions_asc.
    apply encodeEntry_plain; try reflexivity.
    unfold boolean_or. now destruct (obj_get raw "asc").
  - rewrite (getAll_buildParams "include_forks" "include_forks" _ Hwf' eq_refl),
      normalizeOptions_include_forks.
    apply encodeEntry_plain; try reflexivity.
    unfold boolean_or. now destruct (obj_get raw "include_forks").
Qed.

Lemma query_always_has_paging_witness :
  getAll "first" (buildParams (normalizeOptions (list_to_map defaultSettings) [])) = ["30"]
  /\ getAll "sort" (buildParams (normalizeOptions (list_to_map defaultSettings) []))
     = ["download_count"].
Proof.
  destruct (query_always_has_paging (list_to_map defaultSettings) []) as (H1 & H2 & _).
  - unfold wf_obj. simpl. apply NoDup_ListNoDup. constructor.
  - exact I.
  - vm_compute. discriminate.
  - exact I.
  - exact I.
  - split; [rewrite H1 | rewrite H2]; vm_compute; reflexivity.
Defined.

(** With a store that holds a boolean for each of its flags, every query
    carries each of the 14 boolean flags once, as [true] or [false]. *)
Theorem query_always_has_flags (chub : gmap string optval) (raw : obj) (flag : string) :
  wf_obj raw ->
  (forall k, In k settingsFlags -> exists b, chub !! k = Some (OBool b)) ->
  In flag booleanFlags ->
  exists b, obj_get (normalizeOptions chub raw) flag = OBool b
            /\ getAll flag (buildParams (normalizeOptions chub raw)) = [booleanLiteral b].
Proof.
  intros Hwf Hstore Hflag. pose proof (normalizeOptions_wf chub raw Hwf) as Hwf'.
  assert (Hfacts : paramMap flag = Some flag /\ mem flag tagApiKeys = false
                   /\ mem flag numericApiKeys = false).
  { unfold booleanFlags, settingsFlags in Hflag. simpl in Hflag.
    repeat (destruct Hflag as [<-|Hflag]; [repeat split; reflexivity|]). destruct Hflag. }
  destruct Hfacts as (Hpm & Htag & Hnum).
  assert (Hb : exists b, obj_get (normalizeOptions chub raw) flag = OBool b).
  { destruct (booleanFlags_cases flag Hflag) as [Hs| ->].
    - rewrite (normalizeOptions_settingsFlag chub raw flag Hs).
      destruct (Hstore flag Hs) as [b Hb]. unfold setting. rewrite Hb. simpl.
      unfold boolean_or. destruct (obj_get raw flag); eauto.
    - rewrite normalizeOptions_include_forks. unfold boolean_or.
      destruct (obj_get raw "include_forks"); eauto. }
  destruct Hb as [b Hb]. exists b. split; [exact Hb|].
  rewrite (getAll_buildParams flag flag _ Hwf' Hpm), Hb.
  rewrite (encodeEntry_plain flag (OBool b) Hpm Htag Hnum eq_refl). now destruct b.
Qed.

Lemma query_always_has_flags_witness :
  exists b, obj_get (normalizeOptions (list_to_map defaultSettings) []) "require_lore" = OBool b
            /\ getAll "require_lore"
                 (buildParams (normalizeOptions (list_to_map defaultSettings) []))
               = [booleanLiteral b].
Proof.
  apply (query_always_has_flags (list_to_map defaultSettings) [] "require_lore").
  - unfold wf_obj. simpl. apply NoDup_ListNoDup. constructor.
  - intros k Hk. simpl in Hk.
    repeat (destruct Hk as [<-|Hk]; [exists false; vm_compute; reflexivity|]). destruct Hk.
  - unfold booleanFlags, settingsFlags. simpl. tauto.
Defined.

(** * More on the search *)

Lemma mapNodes_Forall2 (items : list value) (records : list CharacterRecord) :
  mapNodes items = Returns records ->
  Forall2 (fun node r => normalizeNode node = Returns r) items records.
Proof.
  revert records. induction items as [|node rest IH]; intros records H; simpl in H.
  - injection H as <-. constructor.
  - destruct (normalizeNode node) as [r|] eqn:Hr; [|discriminate H].
    destruct (mapNodes rest) as [rs|]; [|discriminate H].
    injection H as <-. constructor; [exact Hr | now apply IH].
Qed.

Lemma mapNodes_throws (items : list value) (node : value) (e : exn) :
  In node items -> normalizeNode node = Throws e -> exists e', mapNodes items = Throws e'.
Proof.
  induction items as [|x rest IH]; intros Hin Hthrow; [destruct Hin|]. simpl.
  destruct Hin as [->|Hin].
  - rewrite Hthrow. eauto.
  - destruct (normalizeNode x); [|eauto].
    destruct (IH Hin Hthrow) as [e' ->]. eauto.
Qed.

Lemma noNodes_array (items : list value) : items <> [] -> noNodes (VArr items) = false.
Proof. destruct items; [congruence | reflexivity]. Qed.

Lemma fetch_nodes (net : Request -> fetched) (o : obj) (w : World)
      (r : Response) (body : value) (items : list value) :
  net (searchRequestOf w o) = Resolves r -> ok r = true -> json r = Some body ->
  findNodes body = Returns (VArr items) -> items <> [] ->
  fetchCharactersBySearch net o w
  = match mapNodes items with
    | Returns records =>
        (Returns records,
         {| chub := chub w; chubCharacters := records;
            characterListContainer := characterListContainer w; toasts := toasts w;
            requests := (requests w ++ [searchRequestOf w o])%list; dropped := dropped w |})
    | Throws _ =>
        (Returns [],
         {| chub := chub w; chubCharacters := [];
            characterListContainer := characterListContainer w;
            toasts := (toasts w ++ [fetchErrorToast])%list;
            requests := (requests w ++ [searchRequestOf w o])%list; dropped := dropped w |})
    end.
Proof.
  intros Hnet Hok Hjson Hfind Hne.
  unfold fetchCharactersBySearch. fold (searchRequestOf w o).
  unfold try_catch, bind, fetch, response_json. rewrite Hnet. cbn.
  rewrite Hok. cbn. rewrite Hjson. cbn. rewrite Hfind. cbn -[noNodes nodes_map].
  rewrite (noNodes_array items Hne). cbn.
  destruct (mapNodes items); reflexivity.
Qed.

(** A response whose nodes all normalise gives one record per node, in
    the order of the nodes; the records are returned and published in
    [chubCharacters], and nothing is reported. *)
Theorem search_keeps_order (net : Request -> fetched) (o : obj) (w : World)
        (r : Response) (body : value) (items : list value) (records : list CharacterRecord) :
  net (searchRequestOf w o) = Resolves r -> ok r = true -> json r = Some body ->
  findNodes body = Returns (VArr items) -> items <> [] ->
  mapNodes items = Returns records ->
  let out := fetchCharactersBySearch net o w in
  fst out = Returns records
  /\ chubCharacters (snd out) = records
  /\ toasts (snd out) = toasts w
  /\ length records = length items
  /\ Forall2 (fun node record => normalizeNode node = Returns record) items records.
Proof.
  intros Hnet Hok Hjson Hfind Hne Hmap. cbv zeta.
  rewrite (fetch_nodes net o w r body items Hnet Hok Hjson Hfind Hne), Hmap.
  pose proof (mapNodes_Forall2 items records Hmap) as HF.
  repeat split; try exact HF. symmetry. exact (Forall2_length _ _ _ HF).
Qed.

Lemma search_keeps_order_witness :
  fst (fetchCharactersBySearch
         (fun _ => Resolves (nodesResponse [VObj [("fullPath", VStr "bob/b")];
                                            VObj [("fullPath", VStr "alice/a")]]))
         [] emptyWorld)
  = Returns [ {| url := VStr placeholder; description := VStr "No description.";
                 name := VStr "Unnamed Character"; fullPath := VStr "bob/b";
                 tags := VArr []; author := VStr "bob" |};
              {| url := VStr placeholder; description := VStr "No description.";
                 name := VStr "Unnamed Character"; fullPath := VStr "alice/a";
                 tags := VArr []; author := VStr "alice" |} ].
Proof.
  apply (search_keeps_order _ [] emptyWorld
           (nodesResponse [VObj [("fullPath", VStr "bob/b")];
                           VObj [("fullPath", VStr "alice/a")]])
           (VObj [("nodes", VArr [VObj [("fullPath", VStr "bob/b")];
                                  VObj [("fullPath", VStr "alice/a")]])])
           [VObj [("fullPath", VStr "bob/b")]; VObj [("fullPath", VStr "alice/a")]]);
    try reflexivity. discriminate.
Defined.

(** One node that cannot be normalised (a [null] node, or one whose
    [avatar_url], [avatar] or [fullPath] is truthy and not a string)
    discards the whole response: the search returns the empty sequence,
    publishes the empty list and reports a fetch error. *)
Theorem one_bad_node_discards_all (net : Request -> fetched) (o : obj) (w : World)
        (r : Response) (body : value) (items : list value) (node : value) (e : exn) :
  net (searchRequestOf w o) = Resolves r -> ok r = true -> json r = Some body ->
  findNodes body = Returns (VArr items) ->
  In node items -> normalizeNode node = Throws e ->
  let out := fetchCharactersBySearch net o w in
  fst out = Returns []
  /\ chubCharacters (snd out) = []
  /\ toasts (snd out) = (toasts w ++ [fetchErrorToast])%list.
Proof.
  intros Hnet Hok Hjson Hfind Hin Hthrow. cbv zeta.
  assert (Hne : items <> []) by (intros ->; destruct Hin).
  rewrite (fetch_nodes net o w r body items Hnet Hok Hjson Hfind Hne).
  destruct (mapNodes_throws items node e Hin Hthrow) as [e' ->].
  repeat split.
Qed.

Lemma one_bad_node_discards_all_witness :
  fst (fetchCharactersBySearch
         (fun _ => Resolves (nodesResponse [VObj [("fullPath", VStr "bob/b")];
                                            VObj [("fullPath", VNum 7)]]))
         [] emptyWorld) = Returns []
  /\ toasts (snd (fetchCharactersBySearch
                    (fun _ => Resolves (nodesResponse [VObj [("fullPath", VStr "bob/b")];
                                                       VObj [("fullPath", VNum 7)]]))
                    [] emptyWorld)) = ([] ++ [fetchErrorToast])%list.
Proof.
  destruct (one_bad_node_discards_all
              (fun _ => Resolves (nodesResponse [VObj [("fullPath", VStr "bob/b")];
                                                 VObj [("fullPath", VNum 7)]]))
              [] emptyWorld
              (nodesResponse [VObj [("fullPath", VStr "bob/b")]; VObj [("fullPath", VNum 7)]])
              (VObj [("nodes", VArr [VObj [("fullPath", VStr "bob/b")];
                                     VObj [("fullPath", VNum 7)]])])
              [VObj [("fullPath", VStr "bob/b")]; VObj [("fullPath", VNum 7)]]
              (VObj [("fullPath", VNum 7)]) TypeError) as (H1 & _ & H3);
    try reflexivity.
  - simpl. tauto.
  - split; assumption.
Defined.

Lemma api_error_detail (net : Request -> fetched) (o : obj) (w : World) (r : Response) :
  net (searchRequestOf w o) = Resolves r -> ok r = false ->
  let out := fetchCharactersBySearch net o w in
  fst out = Returns []
  /\ toasts (snd out)
     = (toasts w
        ++ [apiErrorToast
              match json r with
              | Some body =>
                  match prop body "message" with
                  | Returns message =>
                      if v_truthy message
                      then match v_toString message with
                           | Returns detail => detail
                           | Throws _ => statusText r
                           end
                      else statusText r
                  | Throws _ => statusText r
                  end
              | None => statusText r
              end])%list.
Proof.
  intros Hnet Hok. cbv zeta.
  unfold fetchCharactersBySearch. fold (searchRequestOf w o).
  unfold try_catch, bind, fetch, response_json, lift. rewrite Hnet. cbn. rewrite Hok. cbn.
  destruct (json r) as [body|]; cbn; [|split; reflexivity].
  destruct (prop body "message") as [message|]; cbn; [|split; reflexivity].
  destruct (v_truthy message); cbn; [|split; reflexivity].
  destruct (v_toString message); cbn; split; reflexivity.
Qed.

(** On a response outside 200 to 299 the search returns the empty
    sequence with one API Error toast.  The toast quotes the [message]
    of the JSON error body when that is truthy and can be printed (a
    string above all; numbers within the safe integers).  It quotes the
    status text when printing the message throws (an object with a
    [toString] of its own, directly or in an array), and when the body
    does not parse, is [null], or has no truthy message. *)
Theorem api_error_message (net : Request -> fetched) (o : obj) (w : World) (r : Response) :
  net (searchRequestOf w o) = Resolves r -> ok r = false ->
  let out := fetchCharactersBySearch net o w in
  fst out = Returns []
  /\ (forall body message detail,
        json r = Some body -> prop body "message" = Returns message ->
        v_truthy message = true -> safeNumbers message = true ->
        v_toString message = Returns detail ->
        toasts (snd out) = (toasts w ++ [apiErrorToast detail])%list)
  /\ (forall body text,
        json r = Some body -> prop body "message" = Returns (VStr text) -> text <> "" ->
        toasts (snd out) = (toasts w ++ [apiErrorToast text])%list)
  /\ (forall body message e,
        json r = Some body -> prop body "message" = Returns message ->
        v_truthy message = true -> v_toString message = Throws e ->
        toasts (snd out) = (toasts w ++ [apiErrorToast (statusText r)])%list)
  /\ (json r = None \/ json r = Some VNull
      \/ (exists body, json r = Some body /\ v_truthy (readProp body "message") = false) ->
      toasts (snd out) = (toasts w ++ [apiErrorToast (statusText r)])%list).
Proof.
  intros Hnet Hok. cbv zeta.
  destruct (api_error_detail net o w r Hnet Hok) as [Hres Htoast].
  split; [exact Hres|]. rewrite Htoast. clear Hres Htoast.
  assert (Hprint : forall body message detail,
             json r = Some body -> prop body "message" = Returns message ->
             v_truthy message = true -> v_toString message = Returns detail ->
             (toasts w ++ [apiErrorToast
                match json r with
                | Some body =>
                    match prop body "message" with
                    | Returns message =>
                        if v_truthy message
                        then match v_toString message with
                             | Returns detail => detail
                             | Throws _ => statusText r
                             end
                        else statusText r
                    | Throws _ => statusText r
                    end
                | None => statusText r
                end])%list = (toasts w ++ [apiErrorToast detail])%list).
  { intros body message detail -> -> -> ->. reflexivity. }
  split; [|split; [|split]].
  - intros body message detail Hjson Hprop Htruthy _ Hto. now apply (Hprint body message).
  - intros body text Hjson Hprop Htext. apply (Hprint body (VStr text)); try assumption.
    + simpl. now destruct (String.eqb_spec text "").
    + reflexivity.
  - intros body message e -> -> -> ->. reflexivity.
  - intros [->|[->|(body & -> & Hfalsy)]]; try reflexivity.
    unfold readProp in Hfalsy. destruct (prop body "message") as [m|]; [|reflexivity].
    now rewrite Hfalsy.
Qed.

Lemma api_error_message_witness :
  toasts (snd (fetchCharactersBySearch
                 (fun _ => Resolves (errorResponse (VObj [("message", VStr "slow down")])))
                 [] emptyWorld))
  = [apiErrorToast "slow down"]
  /\ toasts (snd (fetchCharactersBySearch
                    (fun _ => Resolves (errorResponse
                                          (VObj [("message", VObj [("toString", VNum 1)])])))
                    [] emptyWorld))
     = [apiErrorToast "Too Many Requests"].
Proof.
  split.
  - destruct (api_error_message
                (fun _ => Resolves (errorResponse (VObj [("message", VStr "slow down")])))
                [] emptyWorld
                (errorResponse (VObj [("message", VStr "slow down")])) eq_refl eq_refl)
      as (_ & H & _).
    apply (H (VObj [("message", VStr "slow down")]) (VStr "slow down")); reflexivity.
  - destruct (api_error_message
                (fun _ => Resolves (errorResponse
                                      (VObj [("message", VObj [("toString", VNum 1)])])))
                [] emptyWorld
                (errorResponse (VObj [("message", VObj [("toString", VNum 1)])]))
                eq_refl eq_refl)
      as (_ & _ & _ & H & _).
    apply (H (VObj [("message", VObj [("toString", VNum 1)])])
             (VObj [("toString", VNum 1)]) TypeError); reflexivity.
Defined.

(** * More on the download *)

Lemma removeAll_quotes (s : string) : allChars notQuote (Js.removeAll doubleQuote s) = true.
Proof.
  induction s as [|d r IH]; [reflexivity|]. cbn [Js.removeAll].
  destruct (Ascii.eqb doubleQuote d) eqn:E; [exact IH|].
  cbn [allChars]. unfold notQuote at 1. rewrite Ascii.eqb_sym, E. exact IH.
Qed.

Lemma fileNameOf_quotes (r : Response) (fileName : string) :
  fileNameOf r = Returns fileName -> allChars notQuote fileName = true.
Proof.
  unfold fileNameOf. destruct (headers_get r "Content-Disposition"); [|discriminate].
  destruct (Js.split "filename=" s) as [|x [|second rest]]; try discriminate.
  intros [= <-]. apply removeAll_quotes.
Qed.

Ltac download_leaf :=
  repeat (first [split | eexists]); try reflexivity;
  try (cbn [file_name]; eauto using fileNameOf_quotes).

Ltac download_pick :=
  first [ left; solve [download_leaf]
        | right; left; solve [download_leaf]
        | right; right; left; solve [download_leaf]
        | right; right; right; solve [download_leaf] ].

Ltac download_close :=
  cbn -[fileNameOf headers_get String.eqb ok];
  split; [reflexivity|]; split; [reflexivity|]; split; [reflexivity|];
  split; [first [left; reflexivity | right; rewrite <- ?app_assoc; reflexivity]|];
  download_pick.

(** What a download can do: it asks the primary endpoint, and at most
    the legacy one after it; it ends in one of four ways: throwing with
    nothing notified and nothing ingested, the import-failed
    notification, the unknown-content-type warning, or the ingestion of
    one file whose name holds no double quote.  It never both notifies
    and ingests, and it leaves the settings, the result list and the
    container alone. *)
Theorem download_footprint (net : Request -> fetched) (input : string) (w : World) :
  let out := downloadCharacter net input w in
  let url := Js.trim input in
  chub (snd out) = chub w
  /\ chubCharacters (snd out) = chubCharacters w
  /\ characterListContainer (snd out) = characterListContainer w
  /\ (requests (snd out) = (requests w ++ [importRequest primaryEndpoint url])%list
      \/ requests (snd out)
         = (requests w ++ [importRequest primaryEndpoint url;
                           importRequest legacyEndpoint url])%list)
  /\ (((exists e, fst out = Throws e)
       /\ toasts (snd out) = toasts w /\ dropped (snd out) = dropped w)
      \/ (fst out = Returns tt
          /\ toasts (snd out) = (toasts w ++ [importFailedToast url])%list
          /\ dropped (snd out) = dropped w)
      \/ (fst out = Returns tt
          /\ toasts (snd out) = (toasts w ++ [unknownTypeToast])%list
          /\ dropped (snd out) = dropped w)
      \/ (exists file,
            fst out = Returns tt
            /\ dropped (snd out) = (dropped w ++ [[file]])%list
            /\ toasts (snd out) = toasts w
            /\ allChars notQuote (file_name file) = true)).
Proof.
  cbv zeta. unfold downloadCharacter, bind, fetch, response_blob, lift.
  set (url := Js.trim input).
  destruct (net (importRequest primaryEndpoint url)) as [|first]; [download_close|].
  cbn -[fileNameOf headers_get String.eqb ok].
  destruct (ok first) eqn:Hok1; cbn -[fileNameOf headers_get String.eqb ok].
  - rewrite Hok1. cbn -[fileNameOf headers_get String.eqb ok].
    destruct (blob first) as [data|]; [|download_close].
    cbn -[fileNameOf headers_get String.eqb ok].
    destruct (fileNameOf first) as [fileName|] eqn:Hname; [|download_close].
    destruct (headers_get first "X-Custom-Content-Type") as [kind|];
      [destruct (String.eqb kind "character")|]; download_close.
  - destruct (net (importRequest legacyEndpoint url)) as [|second]; [download_close|].
    cbn -[fileNameOf headers_get String.eqb ok].
    destruct (ok second) eqn:Hok2; cbn -[fileNameOf headers_get String.eqb ok];
      [|download_close].
    destruct (blob second) as [data|]; [|download_close].
    cbn -[fileNameOf headers_get String.eqb ok].
    destruct (fileNameOf second) as [fileName|] eqn:Hname; [|download_close].
    destruct (headers_get second "X-Custom-Content-Type") as [kind|];
      [destruct (String.eqb kind "character")|]; download_close.
Qed.

(** * Avatar download *)

Lemma imageOf_Some (r : Response) (b : Blob) :
  imageOf r = Some b ->
  ok r = true
  /\ (exists contentType, headers_get r "content-type" = Some contentType
                          /\ Js.startsWith "image/" contentType = true)
  /\ blob r = Some b.
Proof.
  unfold imageOf. destruct (ok r); simpl; [|discriminate].
  destruct (headers_get r "content-type") as [ct|]; [|discriminate].
  destruct (negb (String.eqb ct "")); simpl; [|discriminate].
  destruct (Js.startsWith "image/" ct) eqn:E; [|discriminate].
  intros H. repeat split; eauto.
Qed.

(** [getCharacterAvatar] asks the avatar endpoint and, exactly when that
    answers with a response that is not a success, the download
    endpoint after it, and nothing else.  It resolves with a blob only
    when the response to its last call is a success whose content type
    starts with [image/], and then with the body of that response; a
    rejected call gives [null]. *)
Theorem getCharacterAvatar_result (net : Call -> fetched) (fullPath : string) :
  let out := getCharacterAvatar net fullPath in
  (snd out = [avatarCall fullPath] \/ snd out = [avatarCall fullPath; cardCall fullPath])
  /\ (snd out = [avatarCall fullPath; cardCall fullPath] <->
      exists r, net (avatarCall fullPath) = Resolves r /\ ok r = false)
  /\ (forall b, fst out = Some b ->
        exists r, net (List.last (snd out) (avatarCall fullPath)) = Resolves r
                  /\ ok r = true
                  /\ (exists contentType,
                        headers_get r "content-type" = Some contentType
                        /\ Js.startsWith "image/" contentType = true)
                  /\ blob r = Some b)
  /\ ((exists c, In c (snd out) /\ net c = Rejects) -> fst out = None).
Proof.
  cbv zeta. unfold getCharacterAvatar.
  destruct (net (avatarCall fullPath)) as [|r1] eqn:H1.
  - cbn [fst snd List.last]. split; [now left|]. split.
    + split; [discriminate|]. intros (r & Hr & _). discriminate Hr.
    + split; [discriminate|]. reflexivity.
  - destruct (ok r1) eqn:Hok1; cbn [negb].
    + cbn [fst snd List.last]. split; [now left|]. split.
      * split; [discriminate|]. intros (r & [= <-] & Hr). congruence.
      * split.
        -- intros b Hb. exists r1. split; [exact H1|]. now apply imageOf_Some.
        -- intros (c & [<-|[]] & Hc). congruence.
    + destruct (net (cardCall fullPath)) as [|r2] eqn:H2.
      * cbn [fst snd List.last]. split; [now right|]. split; [split; eauto|].
        split; [discriminate | reflexivity].
      * cbn [fst snd List.last]. split; [now right|]. split; [split; eauto|]. split.
        -- intros b Hb. exists r2. split; [exact H2|]. now apply imageOf_Some.
        -- intros (c & [<-|[<-|[]]] & Hc); congruence.
Qed.

(** * More on the settings store *)

(** [loadSettings] never overwrites what was persisted: outside
    [findCount], a persisted value stays, a missing key of
    [defaultSettings] gets its default, and no other key appears.  The
    stored [findCount] is never left falsy. *)
Theorem loadSettings_keeps_persisted (Number : optval -> optval)
        (persisted : option (gmap string optval)) (k : string) :
  (k <> "findCount" ->
   loadSettings Number persisted !! k
   = match (match persisted with Some m => m | None => ∅ end) !! k with
     | Some v => Some v
     | None => if mem k (map fst defaultSettings)
               then Some (obj_get defaultSettings k) else None
     end)
  /\ truthy (setting (loadSettings Number persisted) "findCount") = true.
Proof.
  split.
  - intros Hne. unfold loadSettings. rewrite lookup_insert_ne by congruence.
    apply seed_lookup.
  - unfold setting, loadSettings. rewrite lookup_insert_eq. unfold default.
    apply js_or_truthy. reflexivity.
Qed.

Lemma loadSettings_keeps_persisted_witness :
  loadSettings (fun v => v) (Some {[ "nsfw" := OBool true ]}) !! "nsfw" = Some (OBool true)
  /\ loadSettings (fun v => v) (Some {[ "nsfw" := OBool true ]}) !! "nsfl" = Some (OBool false).
Proof.
  split.
  - destruct (loadSettings_keeps_persisted (fun v => v) (Some {[ "nsfw" := OBool true ]}) "nsfw")
      as [H _].
    rewrite H by discriminate. vm_compute. reflexivity.
  - destruct (loadSettings_keeps_persisted (fun v => v) (Some {[ "nsfw" := OBool true ]}) "nsfl")
      as [H _].
    rewrite H by discriminate. vm_compute. reflexivity.
Defined.
